(** * make_hirisplex_by_sample_refaware: allele-aware genotype counting

    A shallow embedding of [make_hirisplex_by_sample_refaware.py]: the
    genotype counters, the allele-orientation resolver, the matrix loader
    and the table assembly of [main].

    Python [str] values are modelled as [string] (sequences of 8-bit
    characters, i.e. ASCII text); a [dict] keyed by strings is a
    [gmap string _]; a Python list is a [list]; an exception raised by the
    interpreter is the [Raise] branch of [result]. *)

From Stdlib Require Import Ascii String.
From stdpp Require Import base option list strings pretty gmap fin_maps.

Local Open Scope string_scope.
Local Open Scope nat_scope.

(** ** Exceptions *)

Inductive exn : Type :=
| IndexError   (* list subscript out of range *)
| ValueError   (* tuple unpacking of the wrong number of values *)
| SystemExit.  (* [die]: diagnostic on stderr, then [sys.exit] *)

Inductive result (A : Type) : Type :=
| Ok (a : A)
| Raise (e : exn).
Arguments Ok {A} a.
Arguments Raise {A} e.

Definition bind {A B : Type} (k : A → result B) (m : result A) : result B :=
  match m with
  | Ok a => k a
  | Raise e => Raise e
  end.

#[global] Instance result_bind : MBind result := @bind.
#[global] Instance result_ret : MRet result := @Ok.

(** ** Python string primitives *)

Module Py.

(** [c in s] for a one-character [c]. *)
Fixpoint contains (c : ascii) (s : string) : bool :=
  match s with
  | EmptyString => false
  | String x s' => if Ascii.eqb x c then true else contains c s'
  end.

(** [s.split(c, 1)]: at most one split, at the first occurrence. *)
Fixpoint split1 (c : ascii) (s : string) : list string :=
  match s with
  | EmptyString => [EmptyString]
  | String x s' =>
      if Ascii.eqb x c then [EmptyString; s']
      else match split1 c s' with
           | h :: t => String x h :: t
           | [] => []
           end
  end.

(** [s.split(c)]: split at every occurrence. *)
Fixpoint split (c : ascii) (s : string) : list string :=
  match s with
  | EmptyString => [EmptyString]
  | String x s' =>
      if Ascii.eqb x c then EmptyString :: split c s'
      else match split c s' with
           | h :: t => String x h :: t
           | [] => []
           end
  end.

(** [a, b = l]: unpacking into exactly two names. *)
Definition unpack2 (l : list string) : result (string * string) :=
  match l with
  | [a; b] => Ok (a, b)
  | _ => Raise ValueError
  end.

(** [str.upper] on ASCII text: [a]..[z] go to [A]..[Z]. *)
Definition upper_char (c : ascii) : ascii :=
  let n := nat_of_ascii c in
  if (97 <=? n)%nat && (n <=? 122)%nat then ascii_of_nat (n - 32) else c.

Fixpoint upper (s : string) : string :=
  match s with
  | EmptyString => EmptyString
  | String c s' => String (upper_char c) (upper s')
  end.

(** [str.isspace] on one ASCII character: TAB..CR, FS..US and space. *)
Definition is_space (c : ascii) : bool :=
  let n := nat_of_ascii c in
  ((9 <=? n)%nat && (n <=? 13)%nat) || ((28 <=? n)%nat && (n <=? 32)%nat).

Fixpoint lstrip (s : string) : string :=
  match s with
  | EmptyString => EmptyString
  | String c s' => if is_space c then lstrip s' else s
  end.

(** [s.rstrip()] and [s.rstrip("\n")], by dropping a suffix made of
    characters satisfying [p]. *)
Fixpoint rstrip_with (p : ascii → bool) (s : string) : string :=
  match s with
  | EmptyString => EmptyString
  | String c s' =>
      match rstrip_with p s' with
      | EmptyString => if p c then EmptyString else String c EmptyString
      | r => String c r
      end
  end.

Definition strip (s : string) : string := rstrip_with is_space (lstrip s).

Definition newline : ascii := ascii_of_nat 10.
Definition tab : ascii := ascii_of_nat 9.

Definition rstrip_newline (s : string) : string :=
  rstrip_with (fun c => Ascii.eqb c newline) s.

(** [str(n)] for a non-negative [int]. *)
Definition str (n : nat) : string := pretty n.

(** [l[i:]] for [i >= 0]. *)
Definition slice_from {A : Type} (i : nat) (l : list A) : list A := drop i l.

(** [str.lower] on ASCII text: [A]..[Z] go to [a]..[z]. *)
Definition lower_char (c : ascii) : ascii :=
  let n := nat_of_ascii c in
  if (65 <=? n)%nat && (n <=? 90)%nat then ascii_of_nat (n + 32) else c.

Fixpoint lower (s : string) : string :=
  match s with
  | EmptyString => EmptyString
  | String c s' => String (lower_char c) (lower s')
  end.

End Py.

(** ** dna_complement *)

(** [comp.get(base.upper())]: [None] when the key is not in the table. *)
Definition dna_complement (base : string) : option string :=
  let base := Py.upper base in
  if String.eqb base "A" then Some "T"
  else if String.eqb base "T" then Some "A"
  else if String.eqb base "C" then Some "G"
  else if String.eqb base "G" then Some "C"
  else None.

(** ** gt_count_for_alt, gt_count_for_ref *)

(** [gt in (x, y)]: membership in a two-element tuple. *)
Definition in_pair (gt x y : string) : bool := String.eqb gt x || String.eqb gt y.

Definition gt_count_for_alt (gt : string) : result string :=
  (* the statements after the if/elif/else, once [a] and [b] are bound *)
  let count (a b : string) : result string :=
    if String.eqb a "." || String.eqb b "." then Ok "NA"
    else
      let cnt := 0%nat in
      let cnt := if String.eqb a "1" then (cnt + 1)%nat else cnt in
      let cnt := if String.eqb b "1" then (cnt + 1)%nat else cnt in
      Ok (Py.str cnt) in
  if String.eqb gt "." || String.eqb gt "./." then Ok "NA"
  else if Py.contains "|" gt then
    '(a, b) ← Py.unpack2 (Py.split1 "|" gt); count a b
  else if Py.contains "/" gt then
    '(a, b) ← Py.unpack2 (Py.split1 "/" gt); count a b
  else
    (* haploid *)
    if String.eqb gt "." then Ok "NA"
    else if negb (in_pair gt "0" "1") then Ok "NA"
    else if String.eqb gt "1" then Ok "1" else Ok "0".

Definition gt_count_for_ref (gt : string) : result string :=
  let count (a b : string) : result string :=
    if String.eqb a "." || String.eqb b "." then Ok "NA"
    else
      let cnt := 0%nat in
      let cnt := if String.eqb a "0" then (cnt + 1)%nat else cnt in
      let cnt := if String.eqb b "0" then (cnt + 1)%nat else cnt in
      Ok (Py.str cnt) in
  if String.eqb gt "." || String.eqb gt "./." then Ok "NA"
  else if Py.contains "|" gt then
    '(a, b) ← Py.unpack2 (Py.split1 "|" gt); count a b
  else if Py.contains "/" gt then
    '(a, b) ← Py.unpack2 (Py.split1 "/" gt); count a b
  else
    (* haploid: '0' means REF present (count 1), '1' means ALT (count 0) *)
    if String.eqb gt "." then Ok "NA"
    else if negb (in_pair gt "0" "1") then Ok "NA"
    else if String.eqb gt "0" then Ok "1" else Ok "0".

(** ** decide_target_side *)

(** The three strings ["REF"], ["ALT"], ["NONE"] the function returns. *)
Inductive side : Type := REF | ALT | NONE.

(** [x is not None and t == x] *)
Definition is_some_and_eq (x : option string) (t : string) : bool :=
  match x with
  | Some c => String.eqb t c
  | None => false
  end.

Definition decide_target_side (ref alt allele : string) : side :=
  let r := Py.upper ref in
  let a := Py.upper alt in
  let t := Py.upper allele in
  (* Direct match (SNP) *)
  if String.eqb t a then ALT
  else if String.eqb t r then REF
  else
    (* Complement match *)
    let tc := dna_complement t in  (* not used directly *)
    let rc := if (String.length r =? 1)%nat then dna_complement r else None in
    let ac := if (String.length a =? 1)%nat then dna_complement a else None in
    if is_some_and_eq rc t then REF
    else if is_some_and_eq ac t then ALT
    else
      (* Simple 1-base INDEL heuristics *)
      if (String.length t =? 1)%nat then
        (* insertion: ALT = REF + t *)
        if String.eqb a (r ++ t) then ALT
        (* deletion: REF = ALT + t *)
        else if String.eqb r (a ++ t) then REF
        else NONE
      else NONE.

(** ** read_matrix *)

(** One value of the [data] dict: [{"REF": ref, "ALT": alt, "GT": gts}]. *)
Record info : Type := Info {
  info_REF : string;
  info_ALT : string;
  info_GT : list string
}.

(** [die(msg)] *)
Definition die {A : Type} : result A := Raise SystemExit.

(** The body of [for line in f]; [lines] are the remaining lines of the
    file, each as the file object yields it. *)
Fixpoint read_rows (sample_names : list string) (lines : list string)
    (data : gmap string info) : result (gmap string info) :=
  match lines with
  | [] => Ok data
  | line :: lines' =>
      let line := Py.rstrip_newline line in
      if String.eqb line "" then read_rows sample_names lines' data
      else
        let fields := Py.split Py.tab line in
        if (length fields <? 5)%nat then read_rows sample_names lines' data
        else
          match take 5 fields with
          | [chrom; pos; rsid; ref; alt] =>
              let gts := Py.slice_from 5 fields in
              (* Align length; if missing fill with "." *)
              let gts :=
                if (length gts <? length sample_names)%nat
                then (gts ++ replicate (length sample_names - length gts) "./.")%list
                else gts in
              let rsid := Py.strip rsid in
              read_rows sample_names lines'
                (<[rsid := Info (Py.strip ref) (Py.strip alt) gts]> data)
          | _ => Raise ValueError
          end
  end.

(** [lines]: the lines of the matrix file in order, the header first. *)
Definition read_matrix (lines : list string)
    : result (list string * gmap string info) :=
  match lines with
  | [] => die
  | header_line :: rest =>
      if String.eqb header_line "" then die
      else
        let header := map Py.strip (Py.split Py.tab (Py.rstrip_newline header_line)) in
        (* Expect at least 6 columns *)
        if (length header <? 6)%nat then die
        else
          (* positions: CHROM POS ID REF ALT samples... *)
          let sample_names := Py.slice_from 5 header in
          data ← read_rows sample_names rest ∅;
          Ok (sample_names, data)
  end.

(** ** read_panel *)

(** The inner loop of [find_col]: [for i, h in enumerate(header)], from
    index [i] on; the first cell equal to [cand] up to case. *)
Fixpoint find_header (cand : string) (i : nat) (header : list string) : option nat :=
  match header with
  | [] => None
  | h :: header' =>
      if String.eqb (Py.lower h) (Py.lower cand) then Some i
      else find_header cand (S i) header'
  end.

(** [find_col(cands)]: the candidates in order, each over the whole header. *)
Fixpoint find_col (header : list string) (cands : list string) : option nat :=
  match cands with
  | [] => None
  | cand :: cands' =>
      match find_header cand 0 header with
      | Some i => Some i
      | None => find_col header cands'
      end
  end.

(** [for row in rows[1:]]: [rows] are the rows left, [seen] and [ordered]
    the set and the list built so far. *)
Fixpoint panel_rows (snp_idx allele_idx : nat) (rows : list (list string))
    (seen : gset string) (ordered : list (string * string))
    : result (list (string * string)) :=
  match rows with
  | [] => Ok ordered
  | row :: rows' =>
      if (length row =? 0) || (length row <=? Nat.max snp_idx allele_idx)
      then panel_rows snp_idx allele_idx rows' seen ordered
      else
        match row !! snp_idx, row !! allele_idx with
        | Some x, Some y =>
            let rsid := Py.strip x in
            let allele := Py.strip y in
            if String.eqb rsid "" || String.eqb allele ""
            then panel_rows snp_idx allele_idx rows' seen ordered
            else
              let rsid := Py.strip rsid in
              let allele := Py.upper allele in
              if bool_decide (rsid ∈ seen)
              then panel_rows snp_idx allele_idx rows' seen ordered
              else panel_rows snp_idx allele_idx rows'
                     ({[rsid]} ∪ seen) (ordered ++ [(rsid, allele)])%list
        | _, _ => Raise IndexError
        end
  end.

(** [rows]: the rows of the panel file as [csv.reader] yields them, the
    header row first. *)
Definition read_panel (rows : list (list string)) : result (list (string * string)) :=
  match rows with
  | [] => die
  | header_row :: rest =>
      let header := map Py.strip header_row in
      (* Find SNP column (accept SNP/rsID/ID) and Allele column *)
      let snp_idx := find_col header ["SNP"; "rsID"; "ID"] in
      let allele_idx := find_col header ["Allele"; "ALLELE"; "allele"] in
      match snp_idx, allele_idx with
      | Some snp_idx, Some allele_idx => panel_rows snp_idx allele_idx rest ∅ []
      | _, _ => die
      end
  end.

(** ** main: table assembly *)

(** The mutable state of the assembly: [rows] and [all_na_flags].
    [writes] is ghost state: the index pair of every assignment
    [rows[si][col_idx] = val] executed so far, oldest first. *)
Record store : Type := Store {
  rows : list (list string);
  all_na_flags : list bool;
  writes : list (nat * nat)
}.

(** [rows[si][col_idx] = val] *)
Definition set_cell (si col_idx : nat) (val : string) (st : store) : result store :=
  match rows st !! si with
  | None => Raise IndexError
  | Some row =>
      if (col_idx <? length row)%nat
      then Ok (Store (<[si := <[col_idx := val]> row]> (rows st))
                     (all_na_flags st)
                     (writes st ++ [(si, col_idx)])%list)
      else Raise IndexError
  end.

(** [all_na_flags[idx] = False] *)
Definition clear_flag (idx : nat) (st : store) : result store :=
  if (idx <? length (all_na_flags st))%nat
  then Ok (Store (rows st) (<[idx := false]> (all_na_flags st)) (writes st))
  else Raise IndexError.

(** The value computed in the branch for an unmatched allele:
    if GT present then 0 else NA. *)
Definition unmatched_val (gt : string) : string :=
  if in_pair gt "." "./." then "NA"
  else
    (* Normalize haploid/diploid presence check *)
    let parts :=
      if Py.contains "|" gt then Py.split1 "|" gt
      else if Py.contains "/" gt then Py.split1 "/" gt
      else [gt] in
    if existsb (fun p => String.eqb p ".") parts then "NA" else "0".

(** [for si, gt in enumerate(gts): val = count(gt); rows[si][col_idx] = val;
    if val != "NA": all_na_flags[idx] = False], from index [si] on. *)
Fixpoint fill_column (count : string → result string) (idx col_idx : nat)
    (si : nat) (gts : list string) (st : store) : result store :=
  match gts with
  | [] => Ok st
  | gt :: gts' =>
      val ← count gt;
      st ← set_cell si col_idx val st;
      st ← (if negb (String.eqb val "NA") then clear_flag idx st else Ok st);
      fill_column count idx col_idx (S si) gts' st
  end.

(** [for idx, (rsid, allele) in enumerate(panel): ...], from index [idx] on. *)
Fixpoint fill_table (matrix : gmap string info) (idx : nat)
    (panel : list (string * string)) (st : store) : result store :=
  match panel with
  | [] => Ok st
  | (rsid, allele) :: panel' =>
      let col_idx := (idx + 1)%nat in  (* because first column is sampleid *)
      match matrix !! rsid with
      | None =>
          (* Not found -> all NA; warn later *)
          fill_table matrix (S idx) panel' st
      | Some i =>
          let ref := info_REF i in
          let alt := info_ALT i in
          let side := decide_target_side ref alt allele in
          (* Fill counts *)
          let gts := info_GT i in
          st ← match side with
               | ALT => fill_column gt_count_for_alt idx col_idx 0 gts st
               | REF => fill_column gt_count_for_ref idx col_idx 0 gts st
               | NONE => fill_column (fun gt => Ok (unmatched_val gt)) idx col_idx 0 gts st
               end;
          fill_table matrix (S idx) panel' st
      end
  end.

(** [rows] and [all_na_flags] as initialised before the loop. *)
Definition init_store (samples : list string) (panel : list (string * string)) : store :=
  Store (map (fun s => s :: replicate (length panel) "NA") samples)
        (replicate (length panel) true)
        [].

Definition assemble (samples : list string) (matrix : gmap string info)
    (panel : list (string * string)) : result store :=
  fill_table matrix 0 panel (init_store samples panel).

(** What the run prints after the table is written. *)
Inductive message : Type :=
| WarnAllNA (rsid allele : string)  (* "{}_{} toàn NA (...)" *)
| NoAllNA.                          (* "[+] Không có cột nào toàn NA." *)

(** [for idx, flag in enumerate(all_na_flags): if flag: ...], from [idx] on. *)
Fixpoint warn_columns (panel : list (string * string)) (idx : nat)
    (flags : list bool) : result (list message) :=
  match flags with
  | [] => Ok []
  | flag :: flags' =>
      if flag then
        match panel !! idx with
        | None => Raise IndexError
        | Some (rsid, allele) =>
            rest ← warn_columns panel (S idx) flags';
            Ok (WarnAllNA rsid allele :: rest)
        end
      else warn_columns panel (S idx) flags'
  end.

Definition warnings (panel : list (string * string)) (flags : list bool)
    : result (list message) :=
  msgs ← warn_columns panel 0 flags;
  let warned := length msgs in
  Ok (if (warned =? 0)%nat then (msgs ++ [NoAllNA])%list else msgs).

(** The output of a run: the CSV header, the CSV rows, the messages. *)
Record output : Type := Output {
  out_cols : list string;
  out_rows : list (list string);
  out_msgs : list message
}.

(** [main], from the panel [read_panel] returned and the lines of the
    matrix file. *)
Definition main (panel : list (string * string)) (matrix_lines : list string)
    : result output :=
  if (length panel =? 0)%nat then die
  else
    '(samples, matrix) ← read_matrix matrix_lines;
    let out_cols := "sampleid" :: map (fun '(rs, allele) => rs ++ "_" ++ allele) panel in
    st ← assemble samples matrix panel;
    msgs ← warnings panel (all_na_flags st);
    Ok (Output out_cols (rows st) msgs).

(** [main] with its two reads: the rows of the panel file, then the lines
    of the matrix file. *)
Definition run (panel_file : list (list string)) (matrix_lines : list string)
    : result output :=
  panel ← read_panel panel_file;
  main panel matrix_lines.

(** * Vocabulary of the statements *)

(** The four tokens of an output cell. *)
Definition is_token (r : result string) : Prop :=
  r = Ok "0" ∨ r = Ok "1" ∨ r = Ok "2" ∨ r = Ok "NA".

(** How many of the components [l] are exactly the string [allele]. *)
Definition occurrences (allele : string) (l : list string) : nat :=
  length (List.filter (fun c => String.eqb c allele) l).

(** The count of a two-component genotype, after the split. *)
Definition pair_count (allele : string) (a b : string) : result string :=
  if String.eqb a "." || String.eqb b "." then Ok "NA"
  else Ok (Py.str (occurrences allele [a; b])).

(** One component of a two-allele genotype: it holds no separator. *)
Definition component (s : string) : Prop :=
  Py.contains "|" s = false ∧ Py.contains "/" s = false.

(** The separators of a two-allele genotype. *)
Definition separator (c : ascii) : Prop := c = "|"%char ∨ c = "/"%char.

(** The number of tab-separated fields of a line of the matrix file. *)
Definition n_fields (line : string) : nat :=
  length (Py.split Py.tab (Py.rstrip_newline line)).

(** The genotype fields of a data row: [fields[5:]]. *)
Definition row_genotypes (line : string) : list string :=
  Py.slice_from 5 (Py.split Py.tab (Py.rstrip_newline line)).

(** No data row has more fields than the header row. *)
Definition rows_fit (lines : list string) : Prop :=
  match lines with
  | [] => True
  | header_line :: rest =>
      Forall (fun line => n_fields line ≤ n_fields header_line) rest
  end.

(** A line of the matrix file, from its fields. *)
Definition tsv_line (fields : list string) : string :=
  String.concat (String Py.tab "") fields ++ String Py.newline "".

(** An assignment [rows[si][col_idx] = val] that stays inside a table of
    [nsamples] rows and [npanel] target columns after the [sampleid] one. *)
Definition in_bounds (nsamples npanel : nat) (w : nat * nat) : Prop :=
  w.1 < nsamples ∧ 1 ≤ w.2 ≤ npanel.

(** [rows[si][j]], when both subscripts are in range. *)
Definition cell (st : store) (si j : nat) : option string :=
  row ← rows st !! si; row !! j.

(** The shape [rows], [all_na_flags] and the trace keep during assembly. *)
Record shaped (nsamples npanel : nat) (st : store) : Prop := Shaped {
  shaped_rows : length (rows st) = nsamples;
  shaped_row : Forall (fun row => length row = S npanel) (rows st);
  shaped_flags : length (all_na_flags st) = npanel;
  shaped_writes : Forall (in_bounds nsamples npanel) (writes st)
}.

(** [st] and [st'] have tables of the same size, and agree on every
    column but [col] and every flag but [idx]. *)
Definition same_but (col idx : nat) (st st' : store) : Prop :=
  length (rows st') = length (rows st)
  ∧ length (all_na_flags st') = length (all_na_flags st)
  ∧ (∀ i j, j ≠ col → cell st' i j = cell st i j)
  ∧ (∀ k, k ≠ idx → all_na_flags st' !! k = all_na_flags st !! k).

(** The panel entry of column [k] is not in the matrix, as seen from a
    loop that is at index [idx] with [panel] left to do. *)
Definition absent (matrix : gmap string info) (idx : nat)
    (panel : list (string * string)) (k : nat) : Prop :=
  ∀ rsid allele,
    idx ≤ k → panel !! (k - idx) = Some (rsid, allele) → matrix !! rsid = None.

(** REF for ALT and ALT for REF. *)
Definition swap_side (s : side) : side :=
  match s with
  | REF => ALT
  | ALT => REF
  | NONE => NONE
  end.

(** The sample names of a header line: [header[5:]], each cell stripped. *)
Definition header_samples (header_line : string) : list string :=
  Py.slice_from 5
    (map Py.strip (Py.split Py.tab (Py.rstrip_newline header_line))).

(** The key and the record a data row stands for, when it has at least
    five fields: the third field, then ref, alt and the genotype fields
    followed by the padding. *)
Definition row_record (sample_names : list string) (line : string)
    : option (string * info) :=
  match Py.split Py.tab (Py.rstrip_newline line) with
  | chrom :: pos :: rsid :: ref :: alt :: gts =>
      Some (Py.strip rsid,
            Info (Py.strip ref) (Py.strip alt)
                 (gts ++ replicate (length sample_names - length gts) "./.")%list)
  | _ => None
  end.

(** The counter the assembly applies to the genotypes of a variant, by the
    side its target allele is on. *)
Definition count_for (s : side) (gt : string) : result string :=
  match s with
  | REF => gt_count_for_ref gt
  | ALT => gt_count_for_alt gt
  | NONE => Ok (unmatched_val gt)
  end.

(** The entry a row of the panel file stands for, when it has both cells
    and neither is blank: the stripped SNP cell and the stripped allele
    cell in upper case. *)
Definition panel_entry (snp_idx allele_idx : nat) (row : list string)
    : option (string * string) :=
  x ← row !! snp_idx;
  y ← row !! allele_idx;
  if String.eqb (Py.strip x) "" || String.eqb (Py.strip y) "" then None
  else Some (Py.strip x, Py.upper (Py.strip y)).

(** [seen] is the set of the keys of [ordered], which are distinct. *)
Definition panel_inv (seen : gset string) (ordered : list (string * string)) : Prop :=
  (∀ rsid, rsid ∈ seen ↔ rsid ∈ ordered.*1) ∧ NoDup ordered.*1.

(** [i] is the first index at which [header] has a cell equal to [cand]
    up to case. *)
Definition first_match (cand : string) (header : list string) (i : nat) : Prop :=
  (∃ h, header !! i = Some h ∧ Py.lower h = Py.lower cand)
  ∧ ∀ j h, j < i → header !! j = Some h → Py.lower h ≠ Py.lower cand.

(** * Properties *)

(** ** Strings *)

Section strings.
Implicit Types (c x : ascii) (s a b : string).

Lemma contains_app c a b :
  Py.contains c (a ++ b) = Py.contains c a || Py.contains c b.
Proof.
  induction a as [|x a IH]; simpl; [done|].
  by destruct (Ascii.eqb x c).
Qed.

Lemma contains_sep c a b : Py.contains c (a ++ String c b) = true.
Proof.
  rewrite contains_app; simpl. rewrite Ascii.eqb_refl.
  apply orb_true_r.
Qed.

(** When the separator occurs, [split(c, 1)] has exactly two parts. *)
Lemma split1_contains c s :
  Py.contains c s = true → ∃ a b, Py.split1 c s = [a; b].
Proof.
  induction s as [|x s IH]; simpl; [done|].
  destruct (Ascii.eqb x c); [eauto|].
  intros H. destruct (IH H) as (a & b & ->). eauto.
Qed.

(** When it does not, the string comes back whole. *)
Lemma split1_absent c s : Py.contains c s = false → Py.split1 c s = [s].
Proof.
  induction s as [|x s IH]; simpl; [done|].
  destruct (Ascii.eqb x c); [done|].
  intros H. by rewrite (IH H).
Qed.

(** The split happens at the first occurrence. *)
Lemma split1_first c a b :
  Py.contains c a = false → Py.split1 c (a ++ String c b) = [a; b].
Proof.
  induction a as [|x a IH]; simpl.
  - by rewrite Ascii.eqb_refl.
  - destruct (Ascii.eqb x c); [done|].
    intros H. by rewrite (IH H).
Qed.

Lemma split_nonempty c s : Py.split c s ≠ [].
Proof.
  induction s as [|x s IH]; simpl; [done|].
  destruct (Ascii.eqb x c); [done|].
  by destruct (Py.split c s).
Qed.

Lemma str_0 : Py.str 0 = "0".
Proof. by vm_compute. Qed.
Lemma str_1 : Py.str 1 = "1".
Proof. by vm_compute. Qed.
Lemma str_2 : Py.str 2 = "2".
Proof. by vm_compute. Qed.

Lemma upper_char_idemp c : Py.upper_char (Py.upper_char c) = Py.upper_char c.
Proof. by destruct c as [[] [] [] [] [] [] [] []]. Qed.

Lemma upper_idemp s : Py.upper (Py.upper s) = Py.upper s.
Proof.
  induction s as [|x s IH]; simpl; [done|].
  by rewrite upper_char_idemp, IH.
Qed.

Lemma upper_length s : String.length (Py.upper s) = String.length s.
Proof. induction s; simpl; congruence. Qed.

End strings.

(** ** The genotype counters *)

Section counters.
Implicit Types (gt a b tok : string).

Lemma pair_count_token allele a b : is_token (pair_count allele a b).
Proof.
  unfold pair_count, is_token, occurrences; cbn [List.filter].
  destruct (String.eqb a "." || String.eqb b "."); [by auto|].
  destruct (String.eqb a allele), (String.eqb b allele); cbn [length];
    rewrite ?str_0, ?str_1, ?str_2; auto.
Qed.

(** Both counters, unfolded once: the shape test, then the split. *)
Lemma gt_count_for_alt_unfold gt :
  gt_count_for_alt gt =
    if String.eqb gt "." || String.eqb gt "./." then Ok "NA"
    else if Py.contains "|" gt then
      '(a, b) ← Py.unpack2 (Py.split1 "|" gt); pair_count "1" a b
    else if Py.contains "/" gt then
      '(a, b) ← Py.unpack2 (Py.split1 "/" gt); pair_count "1" a b
    else if String.eqb gt "1" then Ok "1"
    else if String.eqb gt "0" then Ok "0" else Ok "NA".
Proof.
  assert (Hc : ∀ a b,
    (if String.eqb a "." || String.eqb b "." then Ok "NA"
     else Ok (Py.str
       ((if String.eqb b "1" then
           (if String.eqb a "1" then 0 + 1 else 0) + 1
         else if String.eqb a "1" then 0 + 1 else 0))))
    = pair_count "1" a b).
  { intros a b. unfold pair_count, occurrences; cbn [List.filter].
    by destruct (String.eqb a "1"), (String.eqb b "1"). }
  unfold gt_count_for_alt, in_pair.
  destruct (String.eqb_spec gt ".") as [->|Hdot]; [done|].
  destruct (String.eqb gt "./."); [done|]. cbn [orb].
  destruct (Py.contains "|" gt).
  { destruct (Py.unpack2 _) as [[a b]|]; simpl; [apply Hc|done]. }
  destruct (Py.contains "/" gt).
  { destruct (Py.unpack2 _) as [[a b]|]; simpl; [apply Hc|done]. }
  destruct (String.eqb_spec gt "1") as [->|]; [done|].
  by destruct (String.eqb gt "0").
Qed.

Lemma gt_count_for_ref_unfold gt :
  gt_count_for_ref gt =
    if String.eqb gt "." || String.eqb gt "./." then Ok "NA"
    else if Py.contains "|" gt then
      '(a, b) ← Py.unpack2 (Py.split1 "|" gt); pair_count "0" a b
    else if Py.contains "/" gt then
      '(a, b) ← Py.unpack2 (Py.split1 "/" gt); pair_count "0" a b
    else if String.eqb gt "0" then Ok "1"
    else if String.eqb gt "1" then Ok "0" else Ok "NA".
Proof.
  assert (Hc : ∀ a b,
    (if String.eqb a "." || String.eqb b "." then Ok "NA"
     else Ok (Py.str
       ((if String.eqb b "0" then
           (if String.eqb a "0" then 0 + 1 else 0) + 1
         else if String.eqb a "0" then 0 + 1 else 0))))
    = pair_count "0" a b).
  { intros a b. unfold pair_count, occurrences; cbn [List.filter].
    by destruct (String.eqb a "0"), (String.eqb b "0"). }
  unfold gt_count_for_ref, in_pair.
  destruct (String.eqb_spec gt ".") as [->|Hdot]; [done|].
  destruct (String.eqb gt "./."); [done|]. cbn [orb].
  destruct (Py.contains "|" gt).
  { destruct (Py.unpack2 _) as [[a b]|]; simpl; [apply Hc|done]. }
  destruct (Py.contains "/" gt).
  { destruct (Py.unpack2 _) as [[a b]|]; simpl; [apply Hc|done]. }
  destruct (String.eqb_spec gt "0") as [->|]; [done|].
  by destruct (String.eqb gt "1").
Qed.

(** A string with a separator in it is not the one-character [.]; it is
    [./.] only when both components are [.]. *)
Lemma two_allele_not_dot a b sep :
  separator sep → String.eqb (a ++ String sep b) "." = false.
Proof.
  intros Hsep. apply String.eqb_neq. intros H.
  destruct a as [|x [|y a]]; cbv [String.append] in H;
    destruct Hsep; by simplify_eq.
Qed.

Lemma two_allele_missing a b sep :
  String.eqb (a ++ String sep b) "./." = true →
  separator sep → a = "." ∧ b = ".".
Proof.
  intros H%String.eqb_eq Hsep.
  destruct a as [|x [|y [|z [|w a]]]]; cbv [String.append] in H;
    destruct Hsep; by simplify_eq.
Qed.

(** On a two-allele genotype the split gives back the two components. *)
Lemma two_allele_split a b sep :
  separator sep → component a → component b →
  (Py.contains "|" (a ++ String sep b) = true
   ∧ Py.split1 "|" (a ++ String sep b) = [a; b])
  ∨ (Py.contains "|" (a ++ String sep b) = false
     ∧ Py.contains "/" (a ++ String sep b) = true
     ∧ Py.split1 "/" (a ++ String sep b) = [a; b]).
Proof.
  intros [-> | ->] [Ha1 Ha2] [Hb1 Hb2].
  - left. by rewrite contains_sep, split1_first.
  - right. rewrite contains_app, Ha1, contains_sep, split1_first by done.
    cbn [orb Py.contains]. by rewrite Hb1.
Qed.

Lemma gt_count_for_alt_two_allele a b sep :
  separator sep → component a → component b →
  gt_count_for_alt (a ++ String sep b) = pair_count "1" a b.
Proof.
  intros Hsep Ha Hb. rewrite gt_count_for_alt_unfold.
  rewrite two_allele_not_dot by done. cbn [orb].
  destruct (String.eqb (a ++ String sep b) "./.") eqn:E.
  { by destruct (two_allele_missing a b sep) as [-> ->]. }
  destruct (two_allele_split a b sep) as [[-> ->] | (-> & -> & ->)]; done.
Qed.

Lemma gt_count_for_ref_two_allele a b sep :
  separator sep → component a → component b →
  gt_count_for_ref (a ++ String sep b) = pair_count "0" a b.
Proof.
  intros Hsep Ha Hb. rewrite gt_count_for_ref_unfold.
  rewrite two_allele_not_dot by done. cbn [orb].
  destruct (String.eqb (a ++ String sep b) "./.") eqn:E.
  { by destruct (two_allele_missing a b sep) as [-> ->]. }
  destruct (two_allele_split a b sep) as [[-> ->] | (-> & -> & ->)]; done.
Qed.

(** Neither counter raises. *)
Lemma gt_count_for_alt_token gt : is_token (gt_count_for_alt gt).
Proof.
  rewrite gt_count_for_alt_unfold. unfold is_token.
  destruct (_ || _); [by auto|].
  destruct (Py.contains "|" gt) eqn:E1.
  { destruct (split1_contains _ _ E1) as (a & b & ->). apply pair_count_token. }
  destruct (Py.contains "/" gt) eqn:E2.
  { destruct (split1_contains _ _ E2) as (a & b & ->). apply pair_count_token. }
  destruct (String.eqb gt "1"); [by auto|].
  destruct (String.eqb gt "0"); by auto.
Qed.

Lemma gt_count_for_ref_token gt : is_token (gt_count_for_ref gt).
Proof.
  rewrite gt_count_for_ref_unfold. unfold is_token.
  destruct (_ || _); [by auto|].
  destruct (Py.contains "|" gt) eqn:E1.
  { destruct (split1_contains _ _ E1) as (a & b & ->). apply pair_count_token. }
  destruct (Py.contains "/" gt) eqn:E2.
  { destruct (split1_contains _ _ E2) as (a & b & ->). apply pair_count_token. }
  destruct (String.eqb gt "0"); [by auto|].
  destruct (String.eqb gt "1"); by auto.
Qed.

Lemma is_token_Ok r : is_token r → ∃ tok, r = Ok tok.
Proof. intros [-> | [-> | [-> | ->]]]; eauto. Qed.

(** C6. Whatever the input string, [gt_count_for_alt] and
    [gt_count_for_ref] return (they do not raise) one of the four tokens
    ["0"], ["1"], ["2"], ["NA"]. *)
Theorem gt_count_tokens gt :
  is_token (gt_count_for_alt gt) ∧ is_token (gt_count_for_ref gt).
Proof. split; [apply gt_count_for_alt_token | apply gt_count_for_ref_token]. Qed.

(** C8. The values of [gt_count_for_alt] on the seven listed genotypes. *)
Theorem gt_count_for_alt_examples :
  gt_count_for_alt "1|0" = Ok "1"
  ∧ gt_count_for_alt "1|1" = Ok "2"
  ∧ gt_count_for_alt "0/0" = Ok "0"
  ∧ gt_count_for_alt "./." = Ok "NA"
  ∧ gt_count_for_alt "." = Ok "NA"
  ∧ gt_count_for_alt "1" = Ok "1"
  ∧ gt_count_for_alt "0" = Ok "0".
Proof. repeat split; by vm_compute. Qed.

(** C3. On a two-allele genotype whose components are each ["0"] or
    ["1"], the ALT count and the REF count are the string forms of two
    integers that add up to 2; that is, the REF count is 2 minus the ALT
    count. *)
Theorem alt_count_plus_ref_count a b sep :
  a = "0" ∨ a = "1" → b = "0" ∨ b = "1" → separator sep →
  ∃ n m : nat,
    gt_count_for_alt (a ++ String sep b) = Ok (Py.str n)
    ∧ gt_count_for_ref (a ++ String sep b) = Ok (Py.str m)
    ∧ n + m = 2 ∧ m = 2 - n.
Proof.
  intros Ha Hb Hsep.
  exists (occurrences "1" [a; b]), (occurrences "0" [a; b]).
  assert (component a) by (by destruct Ha as [-> | ->]).
  assert (component b) by (by destruct Hb as [-> | ->]).
  rewrite gt_count_for_alt_two_allele, gt_count_for_ref_two_allele by done.
  destruct Ha as [-> | ->], Hb as [-> | ->]; by vm_compute.
Qed.

Lemma alt_count_plus_ref_count_witness :
  ∃ n m : nat,
    gt_count_for_alt "0|1" = Ok (Py.str n)
    ∧ gt_count_for_ref "0|1" = Ok (Py.str m)
    ∧ n + m = 2 ∧ m = 2 - n.
Proof.
  apply (alt_count_plus_ref_count "0" "1" "|");
    [left; reflexivity | right; reflexivity | left; reflexivity].
Defined.

(** C10. On a two-allele genotype with no [.] component,
    [gt_count_for_alt] returns the string form of the number of components
    that are exactly ["1"]: a component that is neither ["0"] nor ["1"]
    adds nothing and does not make the result ["NA"]. *)
Theorem gt_count_for_alt_counts_ones a b sep :
  separator sep → component a → component b → a ≠ "." → b ≠ "." →
  gt_count_for_alt (a ++ String sep b) = Ok (Py.str (occurrences "1" [a; b])).
Proof.
  intros Hsep Ha Hb Ha' Hb'.
  rewrite gt_count_for_alt_two_allele by done. unfold pair_count.
  by destruct (String.eqb_spec a "."), (String.eqb_spec b ".").
Qed.

Lemma gt_count_for_alt_counts_ones_witness :
  gt_count_for_alt "2|1" = Ok "1" ∧ gt_count_for_alt "2|2" = Ok "0".
Proof.
  split.
  - apply (gt_count_for_alt_counts_ones "2" "1" "|");
      [left; reflexivity | split; reflexivity | split; reflexivity
      | discriminate | discriminate].
  - apply (gt_count_for_alt_counts_ones "2" "2" "|");
      [left; reflexivity | split; reflexivity | split; reflexivity
      | discriminate | discriminate].
Defined.

End counters.

(** ** The orientation resolver *)

Section resolver.
Implicit Types (ref alt allele base c : string).

Lemma dna_complement_table base c :
  dna_complement base = Some c ↔
    (Py.upper base = "A" ∧ c = "T") ∨ (Py.upper base = "T" ∧ c = "A")
    ∨ (Py.upper base = "C" ∧ c = "G") ∨ (Py.upper base = "G" ∧ c = "C").
Proof.
  unfold dna_complement. generalize (Py.upper base); intros u.
  repeat match goal with
         | |- context [String.eqb u ?k] =>
             destruct (String.eqb_spec u k) as [-> | ?]
         end;
    (split; [intros [= <-]; auto 10 | intuition congruence]).
Qed.

Lemma is_some_and_eq_true (x : option string) t :
  is_some_and_eq x t = true ↔ x = Some t.
Proof.
  destruct x as [c|]; simpl; [|done].
  rewrite String.eqb_eq. split; congruence.
Qed.

Lemma exact_alt ref alt allele :
  Py.upper allele = Py.upper alt → decide_target_side ref alt allele = ALT.
Proof.
  intros H. unfold decide_target_side. by rewrite H, String.eqb_refl.
Qed.

Lemma exact_ref ref alt allele :
  Py.upper allele ≠ Py.upper alt → Py.upper allele = Py.upper ref →
  decide_target_side ref alt allele = REF.
Proof.
  intros Hne H. unfold decide_target_side.
  apply String.eqb_neq in Hne. by rewrite Hne, H, String.eqb_refl.
Qed.

(** What is left of [decide_target_side] once both exact tests fail. *)
Lemma no_exact_match ref alt allele :
  let r := Py.upper ref in
  let a := Py.upper alt in
  let t := Py.upper allele in
  t ≠ a → t ≠ r →
  decide_target_side ref alt allele =
    if bool_decide (String.length r = 1 ∧ dna_complement r = Some t) then REF
    else if bool_decide (String.length a = 1 ∧ dna_complement a = Some t) then ALT
    else if bool_decide (String.length t = 1 ∧ a = r ++ t) then ALT
    else if bool_decide (String.length t = 1 ∧ r = a ++ t) then REF
    else NONE.
Proof.
  intros r a t Ha%String.eqb_neq Hr%String.eqb_neq.
  unfold decide_target_side. fold r a t. rewrite Ha, Hr.
  assert (Hc : ∀ x, is_some_and_eq
      (if (String.length x =? 1)%nat then dna_complement x else None) t
      = bool_decide (String.length x = 1 ∧ dna_complement x = Some t)).
  { intros x. destruct (Nat.eqb_spec (String.length x) 1) as [E|E].
    - destruct (is_some_and_eq _ _) eqn:Hs.
      + apply is_some_and_eq_true in Hs. by rewrite bool_decide_eq_true_2.
      + rewrite bool_decide_eq_false_2; [done|]. intros [_ Hs'].
        apply is_some_and_eq_true in Hs'. congruence.
    - simpl. rewrite bool_decide_eq_false_2; [done|]. by intros [? _]. }
  rewrite !Hc.
  do 2 (case_bool_decide; [done|]).
  destruct (Nat.eqb_spec (String.length t) 1) as [E|E].
  - destruct (String.eqb_spec a (r ++ t)).
    { by rewrite bool_decide_eq_true_2. }
    rewrite bool_decide_eq_false_2 by (by intros [_ ?]).
    destruct (String.eqb_spec r (a ++ t)).
    { by rewrite bool_decide_eq_true_2. }
    by rewrite bool_decide_eq_false_2 by (by intros [_ ?]).
  - by rewrite !bool_decide_eq_false_2 by (by intros [? _]).
Qed.

(** C4. The exact comparison with alt comes first, then the exact
    comparison with ref, and both come before every complement and indel
    rule: an allele equal to alt gives ALT whatever else holds, and an
    allele different from alt and equal to ref gives REF whatever else
    holds. In particular ref=A, alt=C, target=C gives ALT. *)
Theorem exact_match_first :
  (∀ ref alt allele,
      Py.upper allele = Py.upper alt →
      decide_target_side ref alt allele = ALT)
  ∧ (∀ ref alt allele,
      Py.upper allele ≠ Py.upper alt → Py.upper allele = Py.upper ref →
      decide_target_side ref alt allele = REF)
  ∧ decide_target_side "A" "C" "C" = ALT.
Proof. split_and!; [apply exact_alt | apply exact_ref | done]. Qed.

(** With ref=A, alt=T, target=T the complement of ref would say REF, and
    with ref=T, alt=A, target=T the complement of alt would say ALT: the
    exact match decides both. *)
Lemma exact_match_first_witness :
  decide_target_side "A" "T" "T" = ALT ∧ decide_target_side "T" "A" "T" = REF.
Proof.
  split.
  - apply (proj1 exact_match_first). reflexivity.
  - apply (proj1 (proj2 exact_match_first)); [discriminate | reflexivity].
Defined.

(** C5. [dna_complement] is defined for A, T, C, G only (A with T, C with
    G) and is [None] otherwise. When no exact match holds: a single-base
    ref whose complement is the target gives REF, before alt is looked at;
    otherwise a single-base alt whose complement is the target gives ALT;
    and a REF (an ALT) that comes from neither an exact match nor the
    indel rule comes from the complement of a single-base ref (alt). In
    particular ref=C, alt=A, target=G gives REF. *)
Theorem complement_match :
  (∀ base c,
      dna_complement base = Some c ↔
        (Py.upper base = "A" ∧ c = "T") ∨ (Py.upper base = "T" ∧ c = "A")
        ∨ (Py.upper base = "C" ∧ c = "G") ∨ (Py.upper base = "G" ∧ c = "C"))
  ∧ (∀ ref alt allele,
      let r := Py.upper ref in
      let a := Py.upper alt in
      let t := Py.upper allele in
      t ≠ a → t ≠ r →
      (String.length r = 1 → dna_complement r = Some t →
         decide_target_side ref alt allele = REF)
      ∧ (¬ (String.length r = 1 ∧ dna_complement r = Some t) →
         String.length a = 1 → dna_complement a = Some t →
         decide_target_side ref alt allele = ALT)
      ∧ (decide_target_side ref alt allele = REF →
         (String.length r = 1 ∧ dna_complement r = Some t)
         ∨ (String.length t = 1 ∧ r = a ++ t))
      ∧ (decide_target_side ref alt allele = ALT →
         (String.length a = 1 ∧ dna_complement a = Some t)
         ∨ (String.length t = 1 ∧ a = r ++ t)))
  ∧ decide_target_side "C" "A" "G" = REF.
Proof.
  split_and!; [apply dna_complement_table | | done].
  intros ref alt allele r a t Ha Hr.
  rewrite (no_exact_match ref alt allele Ha Hr). fold r a t.
  split_and!.
  - intros. by rewrite bool_decide_eq_true_2.
  - intros. by rewrite bool_decide_eq_false_2, bool_decide_eq_true_2.
  - repeat case_bool_decide; intuition congruence.
  - repeat case_bool_decide; intuition congruence.
Qed.

Lemma complement_match_witness :
  decide_target_side "C" "A" "G" = REF ∧ decide_target_side "AC" "C" "G" = ALT.
Proof.
  split.
  - apply (proj1 (proj1 (proj2 complement_match) "C" "A" "G"
                    ltac:(discriminate) ltac:(discriminate)));
      reflexivity.
  - apply (proj1 (proj2 (proj1 (proj2 complement_match) "AC" "C" "G"
                    ltac:(discriminate) ltac:(discriminate))));
      [intros [? _]; discriminate | reflexivity | reflexivity].
Defined.

(** C1 as stated fails: the call does not return REF. *)
Lemma AT_A_T_not_REF : decide_target_side "AT" "A" "T" ≠ REF.
Proof. by vm_compute. Qed.

(** C1 (amended). [decide_target_side(ref="AT", alt="A", target="T")]
    returns ALT. No exact match holds; complement matching skips the
    two-character ref but applies to the single-base alt, whose
    complement is the target; that rule comes before the indel path,
    whose deletion test [ref == alt + target] holds as well. *)
Theorem AT_A_T_is_ALT_by_complement :
  decide_target_side "AT" "A" "T" = ALT
  ∧ String.eqb (Py.upper "T") (Py.upper "A") = false
  ∧ String.eqb (Py.upper "T") (Py.upper "AT") = false
  ∧ (String.length (Py.upper "AT") =? 1)%nat = false
  ∧ (String.length (Py.upper "A") =? 1)%nat = true
  ∧ is_some_and_eq (dna_complement (Py.upper "A")) (Py.upper "T") = true
  ∧ String.eqb (Py.upper "AT") (Py.upper "A" ++ Py.upper "T") = true.
Proof. repeat split; by vm_compute. Qed.

(** The indel path does decide a deletion whose deleted base is not the
    complement of alt. *)
Example AG_A_G_is_REF_by_indel :
  decide_target_side "AG" "A" "G" = REF
  ∧ is_some_and_eq (dna_complement (Py.upper "A")) (Py.upper "G") = false.
Proof. split; by vm_compute. Qed.

End resolver.

(** ** The matrix loader *)

Section matrix.
Implicit Types (lines : list string) (data matrix : gmap string info).

(** With no row longer than [5 + length sample_names] fields, the rows
    loaded have one genotype per sample. *)
(** Padding brings a short genotype list to the number of samples. *)
Lemma pad_length (gts : list string) n :
  length gts ≤ n →
  length (if length gts <? n
          then (gts ++ replicate (n - length gts) "./.")%list
          else gts) = n.
Proof.
  intros Hle. destruct (Nat.ltb_spec (length gts) n).
  - rewrite length_app, length_replicate. lia.
  - lia.
Qed.

(** With no row longer than [5 + length sample_names] fields, the rows
    loaded have one genotype per sample. *)
Lemma read_rows_GT_length sample_names lines data data' :
  read_rows sample_names lines data = Ok data' →
  Forall (fun line => n_fields line ≤ 5 + length sample_names) lines →
  (∀ rsid i, data !! rsid = Some i → length (info_GT i) = length sample_names) →
  ∀ rsid i, data' !! rsid = Some i → length (info_GT i) = length sample_names.
Proof.
  revert data. induction lines as [|line lines IH]; intros data Hrun Hfit Hdata.
  { simpl in Hrun. by simplify_eq. }
  apply Forall_cons in Hfit as [Hline Hfit]. unfold n_fields in Hline.
  cbn [read_rows] in Hrun.
  set (fields := Py.split Py.tab (Py.rstrip_newline line)) in *.
  destruct (String.eqb _ ""); [by eapply IH|].
  destruct (Nat.ltb_spec (length fields) 5); [by eapply IH|].
  destruct (take 5 fields) as [|chrom [|pos [|rsid' [|ref [|alt [|]]]]]];
    try done.
  eapply IH; [exact Hrun | exact Hfit |].
  intros rsid i. rewrite lookup_insert.
  case_decide; [|by apply Hdata].
  intros Hi. apply (inj Some) in Hi. rewrite <- Hi. cbn [info_GT].
  apply pad_length. unfold Py.slice_from. rewrite length_drop. lia.
Qed.

Lemma read_matrix_GT_length lines samples matrix :
  read_matrix lines = Ok (samples, matrix) →
  rows_fit lines →
  ∀ rsid i, matrix !! rsid = Some i → length (info_GT i) = length samples.
Proof.
  destruct lines as [|header_line rest]; [done|].
  unfold read_matrix, rows_fit, die.
  destruct (String.eqb header_line ""); [done|].
  set (header := map Py.strip (Py.split Py.tab (Py.rstrip_newline header_line))).
  destruct (Nat.ltb_spec (length header) 6) as [|Hlen]; [done|].
  destruct (read_rows _ rest ∅) as [data|] eqn:Hrows; [|done].
  intros Heq Hfit.
  assert (samples = Py.slice_from 5 header) as -> by (cbn in Heq; congruence).
  assert (matrix = data) as -> by (cbn in Heq; congruence).
  eapply read_rows_GT_length; [exact Hrows| |done].
  eapply Forall_impl; [exact Hfit|]. intros line Hline. cbn beta in Hline.
  unfold n_fields in Hline at 2. unfold Py.slice_from.
  rewrite length_drop. unfold header in *. rewrite length_map in *. lia.
Qed.

(** Where a loaded record comes from: a data row with at least five fields,
    whose genotype fields it holds, followed by the padding. *)
Lemma read_rows_origin sample_names lines data data' rsid i :
  read_rows sample_names lines data = Ok data' →
  data' !! rsid = Some i →
  data !! rsid = Some i
  ∨ ∃ line, line ∈ lines
      ∧ info_GT i = (row_genotypes line
                     ++ replicate (length sample_names - length (row_genotypes line))
                          "./.")%list.
Proof.
  revert data. induction lines as [|line lines IH]; intros data Hrun Hi.
  { cbn in Hrun. simplify_eq. by left. }
  assert (Hlater : ∀ d, read_rows sample_names lines d = Ok data' →
            d !! rsid = Some i ∨ ∃ l, l ∈ line :: lines
              ∧ info_GT i = (row_genotypes l
                  ++ replicate (length sample_names - length (row_genotypes l))
                       "./.")%list).
  { intros d Hd. destruct (IH d Hd Hi) as [?|(l & Hl & ?)]; [by left|].
    right. exists l. split; [by apply list_elem_of_further | done]. }
  cbn [read_rows] in Hrun.
  set (fields := Py.split Py.tab (Py.rstrip_newline line)) in *.
  destruct (String.eqb _ ""); [by apply Hlater|].
  destruct (Nat.ltb_spec (length fields) 5); [by apply Hlater|].
  destruct (take 5 fields) as [|chrom [|pos [|rsid' [|ref [|alt [|]]]]]];
    try done.
  destruct (Hlater _ Hrun) as [Hnew|?]; [|by right].
  rewrite lookup_insert in Hnew. case_decide; [|by left].
  right. exists line. split; [apply list_elem_of_here|].
  apply (inj Some) in Hnew. rewrite <- Hnew. cbn [info_GT].
  unfold row_genotypes. fold fields.
  destruct (Nat.ltb_spec (length (Py.slice_from 5 fields)) (length sample_names));
    [done|].
  replace (length sample_names - length (Py.slice_from 5 fields)) with 0 by lia.
  by rewrite app_nil_r.
Qed.

(** C2 as stated fails: with one sample and a data row of two genotype
    fields, the record for [rs1] has two genotypes. *)
Lemma read_matrix_long_row :
  ∃ samples matrix i,
    read_matrix [tsv_line ["CHROM"; "POS"; "ID"; "REF"; "ALT"; "S1"];
                 tsv_line ["1"; "100"; "rs1"; "A"; "G"; "0|1"; "1|1"]]
    = Ok (samples, matrix)
    ∧ matrix !! "rs1" = Some i
    ∧ length (info_GT i) ≠ length samples.
Proof.
  exists ["S1"], {[ "rs1" := Info "A" "G" ["0|1"; "1|1"] ]},
    (Info "A" "G" ["0|1"; "1|1"]).
  repeat split; by vm_compute.
Qed.

(** C2 (amended). When no data row has more tab-separated fields than the
    header row, every record the loader produces has exactly as many
    genotypes as there are sample names: it holds the genotype fields of a
    data row, no more than there are samples, followed by as many ["./."]
    as are missing. *)
Theorem padded_genotypes_per_sample lines samples matrix rsid i :
  read_matrix lines = Ok (samples, matrix) →
  rows_fit lines →
  matrix !! rsid = Some i →
  length (info_GT i) = length samples
  ∧ ∃ line, line ∈ tail lines
      ∧ length (row_genotypes line) ≤ length samples
      ∧ info_GT i = (row_genotypes line
                     ++ replicate (length samples - length (row_genotypes line))
                          "./.")%list.
Proof.
  intros Hread Hfit Hi.
  pose proof (read_matrix_GT_length lines samples matrix Hread Hfit rsid i Hi)
    as Hlen.
  split; [done|].
  destruct lines as [|header_line rest]; [done|].
  unfold read_matrix, die in Hread.
  destruct (String.eqb header_line ""); [done|].
  destruct (_ <? 6); [done|].
  destruct (read_rows _ rest ∅) as [data|] eqn:Hrows; [|done].
  assert (samples = Py.slice_from 5
            (map Py.strip (Py.split Py.tab (Py.rstrip_newline header_line))))
    as Hs by (cbn in Hread; congruence).
  assert (matrix = data) as -> by (cbn in Hread; congruence).
  rewrite <- Hs in Hrows.
  destruct (read_rows_origin samples rest ∅ data rsid i Hrows Hi)
    as [Hempty | (line & Hline & HGT)]; [done|].
  exists line. split_and!; [done | | done].
  rewrite HGT, length_app, length_replicate in Hlen. lia.
Qed.

Lemma padded_genotypes_per_sample_witness :
  length (info_GT (Info "A" "G" ["0|1"; "./."])) = length ["S1"; "S2"]
  ∧ ∃ line,
      line ∈ tail [tsv_line ["CHROM"; "POS"; "ID"; "REF"; "ALT"; "S1"; "S2"];
                   tsv_line ["1"; "100"; "rs1"; "A"; "G"; "0|1"]]
      ∧ length (row_genotypes line) ≤ length ["S1"; "S2"]
      ∧ info_GT (Info "A" "G" ["0|1"; "./."])
        = (row_genotypes line
           ++ replicate (length ["S1"; "S2"] - length (row_genotypes line))
                "./.")%list.
Proof.
  apply (padded_genotypes_per_sample
           [tsv_line ["CHROM"; "POS"; "ID"; "REF"; "ALT"; "S1"; "S2"];
            tsv_line ["1"; "100"; "rs1"; "A"; "G"; "0|1"]]
           ["S1"; "S2"]
           {[ "rs1" := Info "A" "G" ["0|1"; "./."] ]}
           "rs1").
  - vm_compute; reflexivity.
  - constructor; [vm_compute; lia | constructor].
  - vm_compute; reflexivity.
Defined.

End matrix.

(** ** The table assembly *)

Section assembly.
Implicit Types (samples : list string) (matrix : gmap string info).
Implicit Types (panel : list (string * string)) (st : store).

Lemma bind_Ok_inv {A B} (m : result A) (k : A → result B) y :
  (x ← m; k x) = Ok y → ∃ x, m = Ok x ∧ k x = Ok y.
Proof. destruct m as [x|]; [|done]. intros H. by exists x. Qed.

Lemma set_cell_Ok si col val st st' :
  set_cell si col val st = Ok st' →
  ∃ row, rows st !! si = Some row ∧ col < length row
    ∧ st' = Store (<[si := <[col := val]> row]> (rows st))
                  (all_na_flags st) (writes st ++ [(si, col)]).
Proof.
  unfold set_cell. destruct (rows st !! si) as [row|]; [|done].
  destruct (Nat.ltb_spec col (length row)); [|done].
  intros [= <-]. eauto.
Qed.

Lemma clear_flag_Ok idx st st' :
  clear_flag idx st = Ok st' →
  idx < length (all_na_flags st)
  ∧ st' = Store (rows st) (<[idx := false]> (all_na_flags st)) (writes st).
Proof.
  unfold clear_flag. destruct (Nat.ltb_spec idx (length (all_na_flags st)));
    [|done].
  by intros [= <-].
Qed.

(** *** What a run leaves untouched *)

Lemma same_but_refl col idx st : same_but col idx st st.
Proof. by repeat split. Qed.

Lemma same_but_trans col idx st1 st2 st3 :
  same_but col idx st1 st2 → same_but col idx st2 st3 → same_but col idx st1 st3.
Proof.
  intros (? & ? & Hc1 & Hf1) (? & ? & Hc2 & Hf2).
  split_and!; [congruence | congruence | |].
  - intros i j Hj. by rewrite Hc2, Hc1.
  - intros k Hk. by rewrite Hf2, Hf1.
Qed.

Lemma set_cell_same_but si col idx val st st' :
  set_cell si col val st = Ok st' → same_but col idx st st'.
Proof.
  intros (row & Hrow & Hcol & ->)%set_cell_Ok.
  split_and!; cbn; [by rewrite length_insert | done | | done].
  intros i j Hj. unfold cell; cbn.
  destruct (decide (i = si)) as [-> | Hi].
  - rewrite list_lookup_insert_eq by (by eapply lookup_lt_Some).
    rewrite Hrow; cbn. by rewrite list_lookup_insert_ne.
  - by rewrite list_lookup_insert_ne.
Qed.

Lemma clear_flag_same_but col idx st st' :
  clear_flag idx st = Ok st' → same_but col idx st st'.
Proof.
  intros [Hidx ->]%clear_flag_Ok.
  split_and!; cbn; [done | by rewrite length_insert | done |].
  intros k Hk. by rewrite list_lookup_insert_ne.
Qed.

Lemma fill_column_same_but count idx col si gts st st' :
  fill_column count idx col si gts st = Ok st' → same_but col idx st st'.
Proof.
  revert si st. induction gts as [|gt gts IH]; intros si st Hrun.
  { cbn in Hrun. simplify_eq. apply same_but_refl. }
  cbn [fill_column] in Hrun.
  apply bind_Ok_inv in Hrun as (val & _ & Hrun).
  apply bind_Ok_inv in Hrun as (st1 & Hset & Hrun).
  apply bind_Ok_inv in Hrun as (st2 & Hflag & Hrun).
  eapply same_but_trans; [by eapply set_cell_same_but|].
  eapply same_but_trans; [|by eapply IH].
  destruct (negb _).
  - by eapply clear_flag_same_but.
  - simplify_eq. apply same_but_refl.
Qed.

Lemma fill_table_absent matrix idx panel st st' k :
  fill_table matrix idx panel st = Ok st' →
  absent matrix idx panel k →
  length (rows st') = length (rows st)
  ∧ length (all_na_flags st') = length (all_na_flags st)
  ∧ (∀ i, cell st' i (k + 1) = cell st i (k + 1))
  ∧ all_na_flags st' !! k = all_na_flags st !! k.
Proof.
  revert idx st. induction panel as [|[rsid allele] panel IH];
    intros idx st Hrun Habs.
  { cbn in Hrun. by simplify_eq. }
  assert (Habs' : absent matrix (S idx) panel k).
  { intros rs al Hle Hk. apply (Habs rs al); [lia|].
    by replace (k - idx) with (S (k - S idx)) by lia. }
  cbn [fill_table] in Hrun.
  destruct (matrix !! rsid) as [i|] eqn:Hi; [|by eapply IH].
  apply bind_Ok_inv in Hrun as (st1 & Hcol & Hrun).
  assert (k ≠ idx) as Hk.
  { intros ->. specialize (Habs rsid allele).
    rewrite Nat.sub_diag in Habs. cbn in Habs.
    specialize (Habs ltac:(lia) eq_refl). congruence. }
  assert (same_but (idx + 1) idx st st1) as (Hr & Hf & Hc & Hfl).
  { destruct (decide_target_side _ _ _); by eapply fill_column_same_but. }
  destruct (IH _ _ Hrun Habs') as (Hr' & Hf' & Hc' & Hfl').
  split_and!; [congruence | congruence | |].
  - intros i'. rewrite Hc'. apply Hc. lia.
  - rewrite Hfl'. by apply Hfl.
Qed.

(** *** The table before the loop *)

Lemma init_store_cell samples panel si j :
  si < length samples → 1 ≤ j ≤ length panel →
  cell (init_store samples panel) si j = Some "NA".
Proof.
  intros Hsi Hj. unfold cell, init_store; cbn.
  destruct (lookup_lt_is_Some_2 samples si Hsi) as [s Hs].
  rewrite list_lookup_fmap, Hs; cbn.
  destruct j as [|j]; [lia|]. cbn.
  apply lookup_replicate_2. lia.
Qed.

Lemma init_store_flag samples panel k :
  k < length panel → all_na_flags (init_store samples panel) !! k = Some true.
Proof. intros Hk. cbn. by apply lookup_replicate_2. Qed.

Lemma init_store_shaped samples panel :
  shaped (length samples) (length panel) (init_store samples panel).
Proof.
  split; cbn.
  - by rewrite length_map.
  - apply Forall_fmap, Forall_forall. intros s _. cbn.
    by rewrite length_replicate.
  - by rewrite length_replicate.
  - constructor.
Qed.

Lemma cell_Some st si j val :
  cell st si j = Some val ↔ ∃ row, rows st !! si = Some row ∧ row !! j = Some val.
Proof.
  unfold cell. destruct (rows st !! si) as [row|]; cbn.
  - split; [eauto|]. by intros (? & [= <-] & ?).
  - split; [done|]. by intros (? & ? & ?).
Qed.

(** *** The warnings *)

Lemma warn_columns_Ok panel idx flags :
  idx + length flags ≤ length panel →
  ∃ msgs, warn_columns panel idx flags = Ok msgs.
Proof.
  revert idx. induction flags as [|flag flags IH]; intros idx Hlen; cbn in *.
  { eauto. }
  destruct (IH (S idx)) as [msgs Hmsgs]; [lia|].
  destruct flag; [|eauto].
  destruct (lookup_lt_is_Some_2 panel idx) as [[rsid allele] ->]; [lia|].
  rewrite Hmsgs. cbn. eauto.
Qed.

Lemma warn_columns_flagged panel idx flags msgs k rsid allele :
  warn_columns panel idx flags = Ok msgs →
  flags !! k = Some true → panel !! (idx + k) = Some (rsid, allele) →
  WarnAllNA rsid allele ∈ msgs.
Proof.
  revert idx k msgs. induction flags as [|flag flags IH];
    intros idx k msgs Hrun Hflag Hpanel; [done|].
  cbn [warn_columns] in Hrun. destruct k as [|k]; cbn in Hflag.
  - simplify_eq. rewrite Nat.add_0_r in Hpanel. rewrite Hpanel in Hrun.
    apply bind_Ok_inv in Hrun as (rest & _ & [= <-]). apply list_elem_of_here.
  - assert (Hpanel' : panel !! (S idx + k) = Some (rsid, allele)).
    { by replace (S idx + k) with (idx + S k) by lia. }
    destruct flag; [|by eapply (IH (S idx) k)].
    destruct (panel !! idx) as [[rs al]|]; [|done].
    apply bind_Ok_inv in Hrun as (rest & Hrest & [= <-]).
    apply list_elem_of_further. by eapply (IH (S idx) k).
Qed.

Lemma warnings_flagged panel flags k rsid allele :
  length flags = length panel →
  flags !! k = Some true → panel !! k = Some (rsid, allele) →
  ∃ msgs, warnings panel flags = Ok msgs ∧ WarnAllNA rsid allele ∈ msgs.
Proof.
  intros Hlen Hflag Hpanel. unfold warnings.
  destruct (warn_columns_Ok panel 0 flags) as [msgs Hmsgs]; [lia|].
  rewrite Hmsgs; cbn. eexists; split; [done|].
  assert (WarnAllNA rsid allele ∈ msgs)
    by (by eapply (warn_columns_flagged panel 0 flags msgs k)).
  destruct (length msgs =? 0); [|done].
  apply elem_of_app. by left.
Qed.

(** C7. When the assembly completes, a panel entry whose variantID is not
    a key of the matrix has ["NA"] in its column (column [idx + 1], after
    the [sampleid] column) in the row of every sample, its all-NA flag is
    still set, and the warnings printed after the run name it. *)
Theorem absent_variant_all_NA samples matrix panel st idx rsid allele :
  assemble samples matrix panel = Ok st →
  panel !! idx = Some (rsid, allele) →
  matrix !! rsid = None →
  length (rows st) = length samples
  ∧ (∀ si, si < length samples →
       ∃ row, rows st !! si = Some row ∧ row !! (idx + 1) = Some "NA")
  ∧ all_na_flags st !! idx = Some true
  ∧ ∃ msgs, warnings panel (all_na_flags st) = Ok msgs
            ∧ WarnAllNA rsid allele ∈ msgs.
Proof.
  intros Hrun Hpanel Hmatrix.
  assert (idx < length panel) as Hidx by (by eapply lookup_lt_Some).
  destruct (fill_table_absent matrix 0 panel _ st idx Hrun)
    as (Hrows & Hflags & Hcells & Hflag).
  { intros rs al _. rewrite Nat.sub_0_r, Hpanel. by intros [= <- <-]. }
  rewrite init_store_flag in Hflag by done.
  cbn [init_store rows all_na_flags] in Hrows, Hflags.
  rewrite length_map in Hrows. rewrite length_replicate in Hflags.
  split_and!; [done | | done | by apply (warnings_flagged panel _ idx)].
  intros si Hsi. apply cell_Some. rewrite Hcells.
  apply init_store_cell; [done | lia].
Qed.

Lemma absent_variant_all_NA_witness :
  length (rows (Store [["S1"; "1"; "NA"]] [false; true] [(0, 1)])) = 1
  ∧ (∀ si, si < 1 →
       ∃ row, rows (Store [["S1"; "1"; "NA"]] [false; true] [(0, 1)]) !! si
              = Some row ∧ row !! 2 = Some "NA")
  ∧ [false; true] !! 1 = Some true
  ∧ ∃ msgs, warnings [("rs1", "G"); ("rs2", "A")] [false; true] = Ok msgs
            ∧ WarnAllNA "rs2" "A" ∈ msgs.
Proof.
  apply (absent_variant_all_NA ["S1"]
           {[ "rs1" := Info "A" "G" ["0|1"] ]}
           [("rs1", "G"); ("rs2", "A")]
           (Store [["S1"; "1"; "NA"]] [false; true] [(0, 1)])
           1 "rs2" "A");
    [vm_compute; reflexivity | reflexivity | vm_compute; reflexivity].
Defined.

(** *** Subscripts stay in range *)

Lemma set_cell_shaped ns np si col val st :
  shaped ns np st → si < ns → 1 ≤ col ≤ np →
  ∃ st', set_cell si col val st = Ok st' ∧ shaped ns np st'.
Proof.
  intros [Hrows Hrow Hflags Hwrites] Hsi Hcol. unfold set_cell.
  destruct (lookup_lt_is_Some_2 (rows st) si) as [row Hlook]; [lia|].
  rewrite Hlook.
  assert (length row = S np) as Hlen.
  { rewrite Forall_lookup in Hrow. by apply (Hrow si). }
  destruct (Nat.ltb_spec col (length row)); [|lia].
  eexists; split; [done|]. split; cbn.
  - by rewrite length_insert.
  - apply Forall_insert; [done|]. by rewrite length_insert.
  - done.
  - apply Forall_app; split; [done|]. by apply Forall_singleton.
Qed.

Lemma clear_flag_shaped ns np idx st :
  shaped ns np st → idx < np →
  ∃ st', clear_flag idx st = Ok st' ∧ shaped ns np st'.
Proof.
  intros [Hrows Hrow Hflags Hwrites] Hidx. unfold clear_flag.
  destruct (Nat.ltb_spec idx (length (all_na_flags st))); [|lia].
  eexists; split; [done|]. split; cbn; [done | done | | done].
  by rewrite length_insert.
Qed.

Lemma fill_column_shaped count ns np idx si gts st :
  (∀ gt, ∃ val, count gt = Ok val) →
  shaped ns np st → si + length gts ≤ ns → idx < np →
  ∃ st', fill_column count idx (idx + 1) si gts st = Ok st' ∧ shaped ns np st'.
Proof.
  intros Hcount. revert si st.
  induction gts as [|gt gts IH]; intros si st Hst Hsi Hidx; cbn in *.
  { eauto. }
  destruct (Hcount gt) as [val ->]; cbn.
  destruct (set_cell_shaped ns np si (idx + 1) val st) as (st1 & -> & Hst1);
    [done | lia | lia |]; cbn.
  destruct (negb _).
  - destruct (clear_flag_shaped ns np idx st1) as (st2 & -> & Hst2);
      [done | done |]; cbn.
    apply IH; [done | lia | done].
  - cbn. apply IH; [done | lia | done].
Qed.

Lemma fill_table_shaped matrix ns np idx panel st :
  (∀ rsid i, matrix !! rsid = Some i → length (info_GT i) ≤ ns) →
  shaped ns np st → idx + length panel ≤ np →
  ∃ st', fill_table matrix idx panel st = Ok st' ∧ shaped ns np st'.
Proof.
  intros Hmatrix. revert idx st.
  induction panel as [|[rsid allele] panel IH]; intros idx st Hst Hidx;
    cbn in *.
  { eauto. }
  destruct (matrix !! rsid) as [i|] eqn:Hi; [|apply IH; [done|lia]].
  assert (∃ st1,
    match decide_target_side (info_REF i) (info_ALT i) allele with
    | REF => fill_column gt_count_for_ref idx (idx + 1) 0 (info_GT i) st
    | ALT => fill_column gt_count_for_alt idx (idx + 1) 0 (info_GT i) st
    | NONE => fill_column (fun gt => Ok (unmatched_val gt)) idx (idx + 1) 0
                (info_GT i) st
    end = Ok st1 ∧ shaped ns np st1) as (st1 & -> & Hst1).
  { specialize (Hmatrix _ _ Hi).
    destruct (decide_target_side _ _ _);
      (apply fill_column_shaped; [|done|lia|lia]); intros gt.
    - apply is_token_Ok, gt_count_for_ref_token.
    - apply is_token_Ok, gt_count_for_alt_token.
    - eauto. }
  cbn. apply IH; [done|lia].
Qed.

(** C9. When no data row of the matrix file has more tab-separated fields
    than the header row, the assembly completes without an [IndexError],
    and every assignment [rows[si][col_idx] = val] it executed has
    [si] below the number of samples and [col_idx] between 1 and the
    number of panel entries. *)
Theorem assembly_in_bounds lines samples matrix panel :
  read_matrix lines = Ok (samples, matrix) →
  rows_fit lines →
  ∃ st, assemble samples matrix panel = Ok st
        ∧ Forall (in_bounds (length samples) (length panel)) (writes st).
Proof.
  intros Hread Hfit.
  destruct (fill_table_shaped matrix (length samples) (length panel) 0 panel
              (init_store samples panel)) as (st & Hrun & Hst).
  - intros rsid i Hi.
    by rewrite (read_matrix_GT_length lines samples matrix Hread Hfit rsid i Hi).
  - apply init_store_shaped.
  - lia.
  - exists st. split; [done|]. apply Hst.
Qed.

Lemma assembly_in_bounds_witness :
  ∃ st, assemble ["S1"; "S2"] {[ "rs1" := Info "A" "G" ["0|1"; "./."] ]}
          [("rs1", "G")] = Ok st
        ∧ Forall (in_bounds 2 1) (writes st).
Proof.
  apply (assembly_in_bounds
           [tsv_line ["CHROM"; "POS"; "ID"; "REF"; "ALT"; "S1"; "S2"];
            tsv_line ["1"; "100"; "rs1"; "A"; "G"; "0|1"]]).
  - vm_compute; reflexivity.
  - constructor; [vm_compute; lia | constructor].
Defined.

(** A data row longer than the header makes the run end in [IndexError]:
    with one sample, the second genotype of [rs1] is written to a row that
    does not exist. *)
Example main_long_row :
  main [("rs1", "G")]
       [tsv_line ["CHROM"; "POS"; "ID"; "REF"; "ALT"; "S1"];
        tsv_line ["1"; "100"; "rs1"; "A"; "G"; "0|1"; "1|1"]]
  = Raise IndexError.
Proof. by vm_compute. Qed.

(** The end-to-end example of the specification: one sample with genotype
    [0|1] at a variant with ref=G, alt=A, and the panel entry (rsX, A). *)
Example main_end_to_end :
  main [("rsX", "A")]
       [tsv_line ["CHROM"; "POS"; "ID"; "REF"; "ALT"; "S1"];
        tsv_line ["1"; "100"; "rsX"; "G"; "A"; "0|1"]]
  = Ok (Output ["sampleid"; "rsX_A"] [["S1"; "1"]] [NoAllNA]).
Proof. by vm_compute. Qed.

End assembly.

(** ** More on the genotype counters *)

Section counters_more.
Implicit Types (gt a b allele : string).

Lemma pair_count_NA allele a b :
  pair_count allele a b = Ok "NA" ↔ a = "." ∨ b = ".".
Proof.
  unfold pair_count, occurrences; cbn [List.filter].
  destruct (String.eqb_spec a ".") as [->|Ha]; cbn [orb]; [by split; auto|].
  destruct (String.eqb_spec b ".") as [->|Hb]; cbn [orb]; [by split; auto|].
  split; [|by intros [?|?]].
  destruct (String.eqb a allele), (String.eqb b allele); cbn [length];
    rewrite ?str_0, ?str_1, ?str_2; discriminate.
Qed.

(** X1. On a two-allele genotype with no [.] component,
    [gt_count_for_ref] returns the string form of the number of components
    that are exactly ["0"]. *)
Theorem gt_count_for_ref_counts_zeros a b sep :
  separator sep → component a → component b → a ≠ "." → b ≠ "." →
  gt_count_for_ref (a ++ String sep b) = Ok (Py.str (occurrences "0" [a; b])).
Proof.
  intros Hsep Ha Hb Ha' Hb'.
  rewrite gt_count_for_ref_two_allele by done. unfold pair_count.
  by destruct (String.eqb_spec a "."), (String.eqb_spec b ".").
Qed.

Lemma gt_count_for_ref_counts_zeros_witness :
  gt_count_for_ref "0/2" = Ok "1" ∧ gt_count_for_ref "0|0" = Ok "2".
Proof.
  split.
  - apply (gt_count_for_ref_counts_zeros "0" "2" "/");
      [right; reflexivity | split; reflexivity | split; reflexivity
      | discriminate | discriminate].
  - apply (gt_count_for_ref_counts_zeros "0" "0" "|");
      [left; reflexivity | split; reflexivity | split; reflexivity
      | discriminate | discriminate].
Defined.

(** X2. A two-allele genotype with a [.] on either side is missing for both
    counters: the other component is not counted. *)
Theorem half_missing_is_NA a b sep :
  separator sep → component a → component b → a = "." ∨ b = "." →
  gt_count_for_alt (a ++ String sep b) = Ok "NA"
  ∧ gt_count_for_ref (a ++ String sep b) = Ok "NA".
Proof.
  intros Hsep Ha Hb Hdot.
  rewrite gt_count_for_alt_two_allele, gt_count_for_ref_two_allele by done.
  split; by apply pair_count_NA.
Qed.

Lemma half_missing_is_NA_witness :
  gt_count_for_alt ".|1" = Ok "NA" ∧ gt_count_for_ref ".|1" = Ok "NA".
Proof.
  apply (half_missing_is_NA "." "1" "|");
    [left; reflexivity | split; reflexivity | split; reflexivity
    | left; reflexivity].
Defined.

(** X3. The two counters are missing on the same genotypes: one returns
    ["NA"] exactly when the other does. *)
Theorem NA_on_the_same_genotypes gt :
  gt_count_for_alt gt = Ok "NA" ↔ gt_count_for_ref gt = Ok "NA".
Proof.
  rewrite gt_count_for_alt_unfold, gt_count_for_ref_unfold.
  destruct (_ || _); [done|].
  destruct (Py.contains "|" gt) eqn:E1.
  { destruct (split1_contains _ _ E1) as (a & b & ->); cbn.
    by rewrite !pair_count_NA. }
  destruct (Py.contains "/" gt) eqn:E2.
  { destruct (split1_contains _ _ E2) as (a & b & ->); cbn.
    by rewrite !pair_count_NA. }
  destruct (String.eqb_spec gt "1") as [->|]; [done|].
  by destruct (String.eqb gt "0").
Qed.

(** X4. A genotype with no separator is haploid: ["1"] counts one ALT and
    no REF, ["0"] one REF and no ALT, and every other string (the empty
    one, ["2"], ["01"], ...) is missing for both counters. *)
Theorem haploid_counts gt :
  component gt →
  (gt = "1" ∧ gt_count_for_alt gt = Ok "1" ∧ gt_count_for_ref gt = Ok "0")
  ∨ (gt = "0" ∧ gt_count_for_alt gt = Ok "0" ∧ gt_count_for_ref gt = Ok "1")
  ∨ (gt ≠ "0" ∧ gt ≠ "1"
     ∧ gt_count_for_alt gt = Ok "NA" ∧ gt_count_for_ref gt = Ok "NA").
Proof.
  intros [H1 H2].
  rewrite gt_count_for_alt_unfold, gt_count_for_ref_unfold, H1, H2.
  destruct (String.eqb_spec gt "1") as [->|]; [by left|].
  destruct (String.eqb_spec gt "0") as [->|]; [by right; left|].
  right; right. by destruct (_ || _).
Qed.

Lemma haploid_counts_witness :
  (("2" : string) = "1" ∧ gt_count_for_alt "2" = Ok "1" ∧ gt_count_for_ref "2" = Ok "0")
  ∨ (("2" : string) = "0" ∧ gt_count_for_alt "2" = Ok "0" ∧ gt_count_for_ref "2" = Ok "1")
  ∨ (("2" : string) ≠ "0" ∧ ("2" : string) ≠ "1"
     ∧ gt_count_for_alt "2" = Ok "NA" ∧ gt_count_for_ref "2" = Ok "NA").
Proof. apply (haploid_counts "2"). split; reflexivity. Defined.

(** X5. The value written for an unmatched allele is ["0"] or ["NA"], and
    it is ["NA"] only on genotypes where both counters are ["NA"] too. *)
Theorem unmatched_val_cases gt :
  (unmatched_val gt = "0" ∨ unmatched_val gt = "NA")
  ∧ (unmatched_val gt = "NA" →
     gt_count_for_alt gt = Ok "NA" ∧ gt_count_for_ref gt = Ok "NA").
Proof.
  unfold unmatched_val, in_pair.
  rewrite gt_count_for_alt_unfold, gt_count_for_ref_unfold.
  destruct (String.eqb_spec gt ".") as [->|Hdot]; [by auto|].
  destruct (String.eqb gt "./."); cbn [orb]; [by auto|].
  assert (Hparts : ∀ a b,
    (if existsb (fun p => String.eqb p ".") [a; b] then "NA" else "0") = "NA" →
    a = "." ∨ b = ".").
  { intros a b. cbn.
    destruct (String.eqb_spec a "."); [by auto|].
    destruct (String.eqb_spec b "."); [by auto|]. done. }
  destruct (Py.contains "|" gt) eqn:E1.
  { destruct (split1_contains _ _ E1) as (a & b & ->).
    split; [by destruct (existsb _ _); auto|].
    intros H%Hparts. cbn. by rewrite !pair_count_NA. }
  destruct (Py.contains "/" gt) eqn:E2.
  { destruct (split1_contains _ _ E2) as (a & b & ->).
    split; [by destruct (existsb _ _); auto|].
    intros H%Hparts. cbn. by rewrite !pair_count_NA. }
  cbn. apply String.eqb_neq in Hdot. rewrite Hdot. cbn.
  split; [by left | discriminate].
Qed.

End counters_more.

(** ** More on the orientation resolver *)

Section resolver_more.
Implicit Types (ref alt allele base c : string).

Lemma string_length_app (s1 s2 : string) :
  String.length (s1 ++ s2) = String.length s1 + String.length s2.
Proof.
  induction s1 as [|x s1 IH]; [done|].
  change (S (String.length (s1 ++ s2)) = S (String.length s1 + String.length s2)).
  by rewrite IH.
Qed.

Lemma dna_complement_upper base : dna_complement (Py.upper base) = dna_complement base.
Proof. unfold dna_complement. by rewrite upper_idemp. Qed.

(** Two bases with the same complement are the same base. *)
Lemma dna_complement_inj base base' c :
  dna_complement base = Some c → dna_complement base' = Some c →
  Py.upper base = Py.upper base'.
Proof.
  rewrite !dna_complement_table.
  intros [[-> ->]|[[-> ->]|[[-> ->]|[-> ->]]]] [[-> ?]|[[-> ?]|[[-> ?]|[-> ?]]]];
    done.
Qed.

(** The resolver does not look at the case of its arguments: inputs with
    the same uppercase forms get the same answer. *)
Lemma decide_target_side_ignores_case ref alt allele ref' alt' allele' :
  Py.upper ref = Py.upper ref' → Py.upper alt = Py.upper alt' →
  Py.upper allele = Py.upper allele' →
  decide_target_side ref alt allele = decide_target_side ref' alt' allele'.
Proof. intros Hr Ha Ht. unfold decide_target_side. by rewrite Hr, Ha, Ht. Qed.

Lemma decide_target_side_ignores_case_witness :
  decide_target_side "c" "a" "g" = decide_target_side "C" "A" "G".
Proof.
  apply (decide_target_side_ignores_case "c" "a" "g" "C" "A" "G"); reflexivity.
Defined.

(** X6. Complementing twice gives the base back, in upper case, and no
    base is its own complement. *)
Theorem dna_complement_involutive base c :
  dna_complement base = Some c →
  dna_complement c = Some (Py.upper base) ∧ c ≠ Py.upper base.
Proof.
  rewrite dna_complement_table.
  intros [[-> ->]|[[-> ->]|[[-> ->]|[-> ->]]]]; by split.
Qed.

Lemma dna_complement_involutive_witness :
  dna_complement "T" = Some (Py.upper "a") ∧ ("T" : string) ≠ Py.upper "a".
Proof. apply (dna_complement_involutive "a" "T"). reflexivity. Defined.

(** X7. The answer is NONE exactly when no rule applies: the allele is
    neither alt nor ref, it is not the complement of a single-base ref or
    alt, and it is not a single base that turns one of ref and alt into the
    other when appended. *)
Theorem decide_target_side_NONE ref alt allele :
  let r := Py.upper ref in
  let a := Py.upper alt in
  let t := Py.upper allele in
  decide_target_side ref alt allele = NONE ↔
    t ≠ a ∧ t ≠ r
    ∧ ¬ (String.length r = 1 ∧ dna_complement r = Some t)
    ∧ ¬ (String.length a = 1 ∧ dna_complement a = Some t)
    ∧ ¬ (String.length t = 1 ∧ (a = r ++ t ∨ r = a ++ t)).
Proof.
  intros r a t.
  destruct (decide (t = a)) as [Ha|Ha].
  { rewrite exact_alt by done. split; [done|]. by intros (? & _). }
  destruct (decide (t = r)) as [Hr|Hr].
  { rewrite exact_ref by done. split; [done|]. by intros (_ & ? & _). }
  rewrite (no_exact_match ref alt allele Ha Hr). fold r a t.
  repeat case_bool_decide; split; try done; try (intros (_ & _ & ? & ? & ?));
    try (intros _); intuition.
Qed.

(** X8. Insertion: when alt is ref followed by the single-base allele, the
    answer is ALT, unless the allele is ref itself or the complement of a
    single-base ref (both rules come first and give REF). *)
Theorem insertion_is_ALT ref alt allele :
  let r := Py.upper ref in
  let a := Py.upper alt in
  let t := Py.upper allele in
  String.length t = 1 → a = r ++ t →
  t ≠ r → ¬ (String.length r = 1 ∧ dna_complement r = Some t) →
  decide_target_side ref alt allele = ALT.
Proof.
  intros r a t Hlen Hins Hr Hrc.
  destruct (decide (t = a)) as [Ha|Ha]; [by apply exact_alt|].
  rewrite (no_exact_match ref alt allele Ha Hr). fold r a t.
  rewrite bool_decide_eq_false_2 by done.
  case_bool_decide; [done|]. by rewrite bool_decide_eq_true_2.
Qed.

Lemma insertion_is_ALT_witness : decide_target_side "A" "AG" "g" = ALT.
Proof.
  apply (insertion_is_ALT "A" "AG" "g");
    [reflexivity | reflexivity | discriminate | intros [_ ?]; discriminate].
Defined.

(** X9. Deletion: when ref is alt followed by the single-base allele, the
    answer is REF, unless the allele is alt itself or the complement of a
    single-base alt (both rules come first and give ALT). *)
Theorem deletion_is_REF ref alt allele :
  let r := Py.upper ref in
  let a := Py.upper alt in
  let t := Py.upper allele in
  String.length t = 1 → r = a ++ t →
  t ≠ a → ¬ (String.length a = 1 ∧ dna_complement a = Some t) →
  decide_target_side ref alt allele = REF.
Proof.
  intros r a t Hlen Hdel Ha Hac.
  destruct (decide (t = r)) as [Hr|Hr]; [by apply exact_ref|].
  rewrite (no_exact_match ref alt allele Ha Hr). fold r a t.
  case_bool_decide; [done|].
  rewrite bool_decide_eq_false_2 by done.
  rewrite bool_decide_eq_false_2.
  - by rewrite bool_decide_eq_true_2.
  - intros [_ Hins]. apply (f_equal String.length) in Hins.
    rewrite Hdel, !string_length_app in Hins. lia.
Qed.

Lemma deletion_is_REF_witness : decide_target_side "AG" "A" "G" = REF.
Proof.
  apply (deletion_is_REF "AG" "A" "G");
    [reflexivity | reflexivity | discriminate | intros [_ ?]; discriminate].
Defined.

(** X10. Exchanging ref and alt exchanges the answers REF and ALT, as long
    as ref and alt differ (up to case). *)
Theorem decide_target_side_swap ref alt allele :
  Py.upper ref ≠ Py.upper alt →
  decide_target_side alt ref allele = swap_side (decide_target_side ref alt allele).
Proof.
  intros Hne.
  set (r := Py.upper ref) in *. set (a := Py.upper alt) in *.
  set (t := Py.upper allele).
  destruct (decide (t = a)) as [Ha|Ha].
  { rewrite (exact_alt ref alt allele Ha).
    rewrite (exact_ref alt ref allele); [done| |done]. fold t r. congruence. }
  destruct (decide (t = r)) as [Hr|Hr].
  { rewrite (exact_ref ref alt allele Ha Hr). by rewrite (exact_alt alt ref allele). }
  rewrite (no_exact_match ref alt allele Ha Hr).
  rewrite (no_exact_match alt ref allele Hr Ha). fold r a t.
  assert (Hcompl : ¬ (dna_complement r = Some t ∧ dna_complement a = Some t)).
  { intros [H1 H2]. apply Hne.
    pose proof (dna_complement_inj r a t H1 H2) as Heq.
    unfold r, a in Heq. by rewrite !upper_idemp in Heq. }
  assert (Hindel : String.length t = 1 → ¬ (a = r ++ t ∧ r = a ++ t)).
  { intros Hlen [H1 H2]. apply (f_equal String.length) in H1, H2.
    rewrite string_length_app in H1, H2. lia. }
  repeat case_bool_decide; try done; exfalso; intuition.
Qed.

Lemma decide_target_side_swap_witness :
  decide_target_side "A" "C" "G" = swap_side (decide_target_side "C" "A" "G").
Proof. apply (decide_target_side_swap "C" "A" "G"). discriminate. Defined.

End resolver_more.

(** ** More on the matrix loader *)

Section matrix_more.
Implicit Types (lines : list string) (data matrix : gmap string info).
Implicit Types (sample_names samples : list string).

(** One turn of the loop of [read_rows]. *)
Lemma read_rows_cons sample_names line lines data :
  read_rows sample_names (line :: lines) data =
    read_rows sample_names lines
      (match row_record sample_names line with
       | Some (rsid, i) => <[rsid := i]> data
       | None => data
       end).
Proof.
  cbn [read_rows]. unfold row_record, Py.slice_from.
  set (fields := Py.split Py.tab (Py.rstrip_newline line)).
  assert (Hblank : Py.rstrip_newline line = "" → fields = [""]).
  { unfold fields. by intros ->. }
  destruct (String.eqb_spec (Py.rstrip_newline line) "") as [E|_].
  { by rewrite (Hblank E). }
  clear Hblank.
  destruct fields as [|chrom [|pos [|rsid [|ref [|alt gts]]]]]; try done.
  change (drop 5 (chrom :: pos :: rsid :: ref :: alt :: gts)) with gts.
  change (take 5 (chrom :: pos :: rsid :: ref :: alt :: gts))
    with [chrom; pos; rsid; ref; alt].
  cbn [length].
  replace (S (S (S (S (S (length gts))))) <? 5) with false
    by (symmetry; apply Nat.ltb_ge; lia).
  destruct (Nat.ltb_spec (length gts) (length sample_names)); [done|].
  replace (length sample_names - length gts) with 0 by lia.
  by rewrite app_nil_r.
Qed.

(** The loop never raises: unpacking [fields[:5]] comes after the test on
    the number of fields. *)
Lemma read_rows_Ok sample_names lines data :
  ∃ data', read_rows sample_names lines data = Ok data'.
Proof.
  revert data. induction lines as [|line lines IH]; intros data.
  - by exists data.
  - rewrite read_rows_cons. apply IH.
Qed.

Lemma read_rows_app sample_names lines1 lines2 data :
  read_rows sample_names (lines1 ++ lines2) data =
    (data1 ← read_rows sample_names lines1 data;
     read_rows sample_names lines2 data1).
Proof.
  revert data. induction lines1 as [|line lines1 IH]; intros data; [done|].
  rewrite <- app_comm_cons, !read_rows_cons. apply IH.
Qed.

(** A key stays as it is through rows that are not records for it. *)
Lemma read_rows_other_keys sample_names lines data data' rsid :
  read_rows sample_names lines data = Ok data' →
  (∀ line i, line ∈ lines → row_record sample_names line ≠ Some (rsid, i)) →
  data' !! rsid = data !! rsid.
Proof.
  revert data. induction lines as [|line lines IH]; intros data Hrun Hother.
  { cbn in Hrun. by simplify_eq. }
  rewrite read_rows_cons in Hrun.
  rewrite (IH _ Hrun).
  - destruct (row_record sample_names line) as [[k i]|] eqn:Hrec; [|done].
    apply lookup_insert_ne. intros ->.
    by apply (Hother line i); [apply list_elem_of_here|].
  - intros l i Hl. apply Hother. by apply list_elem_of_further.
Qed.

Lemma read_rows_from_row sample_names lines data data' rsid i :
  read_rows sample_names lines data = Ok data' →
  data' !! rsid = Some i →
  data !! rsid = Some i
  ∨ ∃ line, line ∈ lines ∧ row_record sample_names line = Some (rsid, i).
Proof.
  revert data. induction lines as [|line lines IH]; intros data Hrun Hi.
  { cbn in Hrun. simplify_eq. by left. }
  rewrite read_rows_cons in Hrun.
  destruct (IH _ Hrun Hi) as [Hdata|(l & Hl & Hrec)].
  - destruct (row_record sample_names line) as [[k i']|] eqn:Hrec; [|by left].
    rewrite lookup_insert in Hdata. case_decide; [|by left].
    simplify_eq. right. exists line. split; [apply list_elem_of_here | done].
  - right. exists l. split; [by apply list_elem_of_further | done].
Qed.

(** What [read_matrix] does with a header that passes its tests. *)
Lemma read_matrix_unfold header_line rest :
  header_line ≠ "" → 6 ≤ n_fields header_line →
  read_matrix (header_line :: rest) =
    (data ← read_rows (header_samples header_line) rest ∅;
     Ok (header_samples header_line, data)).
Proof.
  intros Hne Hlen. unfold read_matrix, header_samples.
  apply String.eqb_neq in Hne. rewrite Hne.
  unfold n_fields in Hlen.
  replace (length (map Py.strip _) <? 6) with false; [done|].
  symmetry. apply Nat.ltb_ge. by rewrite length_map.
Qed.

Lemma read_matrix_Ok_inv lines samples matrix :
  read_matrix lines = Ok (samples, matrix) →
  ∃ header_line rest,
    lines = header_line :: rest
    ∧ header_line ≠ "" ∧ 6 ≤ n_fields header_line
    ∧ samples = header_samples header_line
    ∧ read_rows samples rest ∅ = Ok matrix.
Proof.
  destruct lines as [|header_line rest]; [done|].
  intros Hread. exists header_line, rest.
  destruct (String.eqb_spec header_line "") as [->|Hne]; [done|].
  destruct (Nat.le_gt_cases 6 (n_fields header_line)) as [Hlen|Hlen].
  - rewrite read_matrix_unfold in Hread by done.
    destruct (read_rows _ rest ∅) as [data|] eqn:Hrows; [|done].
    cbn in Hread. by simplify_eq.
  - exfalso. unfold read_matrix, n_fields in *.
    apply String.eqb_neq in Hne. rewrite Hne in Hread.
    replace (length (map Py.strip _) <? 6) with true in Hread; [done|].
    symmetry. apply Nat.ltb_lt. by rewrite length_map.
Qed.


(** X12. Whatever the rows look like, a loaded record never has fewer
    genotypes than there are samples. *)
Theorem never_fewer_genotypes lines samples matrix rsid i :
  read_matrix lines = Ok (samples, matrix) →
  matrix !! rsid = Some i →
  length samples ≤ length (info_GT i).
Proof.
  intros (h & rest & -> & _ & _ & _ & Hrows)%read_matrix_Ok_inv Hi.
  destruct (read_rows_from_row _ _ _ _ _ _ Hrows Hi)
    as [?|(line & _ & Hrec)]; [done|].
  unfold row_record in Hrec.
  destruct (Py.split _ _) as [|chrom [|pos [|k [|ref [|alt gts]]]]]; try done.
  simplify_eq. cbn. rewrite length_app, length_replicate. lia.
Qed.

Lemma never_fewer_genotypes_witness :
  length ["S1"] ≤ length (info_GT (Info "A" "G" ["0|1"; "1|1"])).
Proof.
  apply (never_fewer_genotypes
           [tsv_line ["CHROM"; "POS"; "ID"; "REF"; "ALT"; "S1"];
            tsv_line ["1"; "100"; "rs1"; "A"; "G"; "0|1"; "1|1"]]
           ["S1"] {[ "rs1" := Info "A" "G" ["0|1"; "1|1"] ]} "rs1");
    vm_compute; reflexivity.
Defined.

(** X13. The mapping holds nothing but rows of the file: every key is the
    stripped third field, and every record the stripped ref and alt and the
    padded genotypes, of a data row with at least five fields. *)
Theorem records_come_from_rows lines samples matrix rsid i :
  read_matrix lines = Ok (samples, matrix) →
  matrix !! rsid = Some i →
  ∃ line, line ∈ tail lines ∧ row_record samples line = Some (rsid, i).
Proof.
  intros (h & rest & -> & _ & _ & _ & Hrows)%read_matrix_Ok_inv Hi.
  by destruct (read_rows_from_row _ _ _ _ _ _ Hrows Hi) as [?|?].
Qed.

Lemma records_come_from_rows_witness :
  ∃ line,
    line ∈ tail [tsv_line ["CHROM"; "POS"; "ID"; "REF"; "ALT"; "S1"; "S2"];
                 tsv_line ["1"; "100"; " rs1 "; "a "; "G"; "0|1"]]
    ∧ row_record ["S1"; "S2"] line = Some ("rs1", Info "a" "G" ["0|1"; "./."]).
Proof.
  apply (records_come_from_rows
           [tsv_line ["CHROM"; "POS"; "ID"; "REF"; "ALT"; "S1"; "S2"];
            tsv_line ["1"; "100"; " rs1 "; "a "; "G"; "0|1"]]
           ["S1"; "S2"] {[ "rs1" := Info "a" "G" ["0|1"; "./."] ]} "rs1");
    vm_compute; reflexivity.
Defined.

(** X14. Every data row with at least five fields puts its key in the
    mapping, and of several rows with the same key the last one wins: the
    record of a row is the one found under its key when no later row has
    that key. *)
Theorem last_row_wins header_line before line after samples matrix rsid i :
  read_matrix (header_line :: before ++ line :: after) = Ok (samples, matrix) →
  row_record samples line = Some (rsid, i) →
  is_Some (matrix !! rsid)
  ∧ ((∀ l i', l ∈ after → row_record samples l ≠ Some (rsid, i')) →
     matrix !! rsid = Some i).
Proof.
  intros (h & rest & [= <- <-] & _ & _ & _ & Hrows)%read_matrix_Ok_inv Hrec.
  rewrite read_rows_app in Hrows.
  apply bind_Ok_inv in Hrows as (data1 & Hbefore & Hrows).
  rewrite read_rows_cons, Hrec in Hrows.
  split.
  - destruct (matrix !! rsid) as [i'|] eqn:Hlook; [done|]. exfalso.
    assert (Hin : ∀ l d d', read_rows samples l d = Ok d' →
              is_Some (d !! rsid) → is_Some (d' !! rsid)).
    { clear. induction l as [|x l IH]; intros d d' Hrun Hd.
      - cbn in Hrun. by simplify_eq.
      - rewrite read_rows_cons in Hrun. apply (IH _ _ Hrun).
        destruct (row_record samples x) as [[k j]|]; [|done].
        rewrite lookup_insert. by case_decide. }
    destruct (Hin _ _ _ Hrows) as [? ?]; [|congruence].
    by rewrite lookup_insert_eq.
  - intros Hafter.
    rewrite (read_rows_other_keys _ _ _ _ rsid Hrows Hafter).
    by rewrite lookup_insert_eq.
Qed.

Lemma last_row_wins_witness :
  is_Some (({[ "rs1" := Info "C" "T" ["1|1"] ]} : gmap string info) !! "rs1")
  ∧ ((∀ l i', l ∈ [] → row_record ["S1"] l ≠ Some ("rs1", i')) →
     ({[ "rs1" := Info "C" "T" ["1|1"] ]} : gmap string info) !! "rs1"
     = Some (Info "C" "T" ["1|1"])).
Proof.
  apply (last_row_wins
           (tsv_line ["CHROM"; "POS"; "ID"; "REF"; "ALT"; "S1"])
           [tsv_line ["1"; "100"; "rs1"; "A"; "G"; "0|1"]]
           (tsv_line ["1"; "100"; "rs1"; "C"; "T"; "1|1"])
           [] ["S1"]);
    vm_compute; reflexivity.
Defined.

End matrix_more.

(** ** More on the table assembly *)

Section assembly_more.
Implicit Types (samples : list string) (matrix : gmap string info).
Implicit Types (panel : list (string * string)) (st : store).

Lemma count_for_token s gt : is_token (count_for s gt).
Proof.
  destruct s; cbn.
  - apply gt_count_for_ref_token.
  - apply gt_count_for_alt_token.
  - unfold is_token, unmatched_val.
    destruct (in_pair _ _ _); [by auto 10|].
    destruct (existsb _ _); by auto 10.
Qed.

(** *** One assignment, one column *)

Lemma set_cell_exact si col val st st' :
  set_cell si col val st = Ok st' →
  cell st' si col = Some val
  ∧ (∀ i j, (i, j) ≠ (si, col) → cell st' i j = cell st i j)
  ∧ (∀ i j, is_Some (cell st' i j) ↔ is_Some (cell st i j))
  ∧ all_na_flags st' = all_na_flags st.
Proof.
  intros (row & Hrow & Hcol & ->)%set_cell_Ok.
  assert (si < length (rows st)) as Hsi by (by eapply lookup_lt_Some).
  assert (Hother : ∀ i j, (i, j) ≠ (si, col) →
    cell (Store (<[si := <[col := val]> row]> (rows st)) (all_na_flags st)
            (writes st ++ [(si, col)])) i j = cell st i j).
  { intros i j Hij. unfold cell; cbn.
    destruct (decide (i = si)) as [-> | Hi].
    - rewrite list_lookup_insert_eq by done. rewrite Hrow; cbn.
      apply list_lookup_insert_ne. congruence.
    - by rewrite list_lookup_insert_ne. }
  assert (Hhere : cell (Store (<[si := <[col := val]> row]> (rows st))
                     (all_na_flags st) (writes st ++ [(si, col)])) si col
                  = Some val).
  { unfold cell; cbn. rewrite list_lookup_insert_eq by done; cbn.
    by apply list_lookup_insert_eq. }
  split_and!; [done | done | | done].
  intros i j. destruct (decide ((i, j) = (si, col))) as [[= -> ->] | Hij].
  - rewrite Hhere. unfold cell. rewrite Hrow; cbn.
    split; intros _; [by apply lookup_lt_is_Some_2 | done].
  - by rewrite Hother.
Qed.

Lemma clear_flag_cells idx st st' i j :
  clear_flag idx st = Ok st' → cell st' i j = cell st i j.
Proof. by intros [_ ->]%clear_flag_Ok. Qed.

(** After the loop over [gts]: the rows [si] .. [si + len(gts) - 1] of
    column [col] hold the counts, the other rows of the column are as
    before, and the flag is still set only if it was and every count is
    ["NA"]. *)
Lemma fill_column_exact count idx col si gts st st' :
  fill_column count idx col si gts st = Ok st' →
  (∀ k gt, gts !! k = Some gt →
     ∃ v, count gt = Ok v ∧ cell st' (si + k) col = Some v)
  ∧ (∀ i, i < si ∨ si + length gts ≤ i → cell st' i col = cell st i col)
  ∧ (all_na_flags st' !! idx = Some true ↔
       all_na_flags st !! idx = Some true ∧ ∀ gt, gt ∈ gts → count gt = Ok "NA")
  ∧ (∀ i j, is_Some (cell st' i j) ↔ is_Some (cell st i j)).
Proof.
  revert si st. induction gts as [|gt gts IH]; intros si st Hrun.
  { cbn in Hrun. simplify_eq. split_and!; [done | done | | done].
    split; [|by intros [? _]]. intros ?. split; [done|].
    intros gt Hgt. by apply elem_of_nil in Hgt. }
  cbn [fill_column] in Hrun.
  apply bind_Ok_inv in Hrun as (val & Hval & Hrun).
  apply bind_Ok_inv in Hrun as (st1 & Hset & Hrun).
  apply bind_Ok_inv in Hrun as (st2 & Hflag & Hrun).
  destruct (set_cell_exact _ _ _ _ _ Hset) as (Hhere & Hother & Hdom & Hflags1).
  assert (Hcells2 : ∀ i j, cell st2 i j = cell st1 i j).
  { intros i j. destruct (negb _); [by eapply clear_flag_cells|by simplify_eq]. }
  destruct (IH _ _ Hrun) as (IHa & IHb & IHc & IHd).
  split_and!.
  - intros [|k] gt' Hk; cbn in Hk.
    + simplify_eq. exists val. split; [done|].
      rewrite Nat.add_0_r, IHb, Hcells2 by lia. done.
    + destruct (IHa k gt' Hk) as (v & Hv & Hcell). exists v. split; [done|].
      by replace (si + S k) with (S si + k) by lia.
  - intros i Hi. cbn [length] in Hi.
    rewrite IHb, Hcells2 by lia. apply Hother. intros [= ->]. lia.
  - rewrite IHc. destruct (String.eqb_spec val "NA") as [-> | Hna];
      cbn [negb] in Hflag.
    + simplify_eq. rewrite Hflags1. split.
      * intros [? Hall]. split; [done|]. intros gt' [->|?]%elem_of_cons; auto.
      * intros [? Hall]. split; [done|]. intros gt' ?. apply Hall.
        by apply list_elem_of_further.
    + apply clear_flag_Ok in Hflag as [Hidx ->]. cbn [all_na_flags].
      rewrite list_lookup_insert_eq by done. split; [by intros [? _]|].
      intros [_ Hall]. specialize (Hall gt (list_elem_of_here _ _)). congruence.
  - intros i j. by rewrite IHd, <- Hdom, Hcells2.
Qed.

(** The loop over the panel leaves the [sampleid] column and the size of
    every row as they are. *)
Lemma fill_table_frame matrix idx panel st st' :
  fill_table matrix idx panel st = Ok st' →
  (∀ i, cell st' i 0 = cell st i 0)
  ∧ (∀ i j, is_Some (cell st' i j) ↔ is_Some (cell st i j)).
Proof.
  revert idx st. induction panel as [|[rsid allele] panel IH]; intros idx st Hrun.
  { cbn in Hrun. by simplify_eq. }
  cbn [fill_table] in Hrun.
  destruct (matrix !! rsid) as [i|]; [|by eapply IH].
  apply bind_Ok_inv in Hrun as (st1 & Hcol & Hrun).
  destruct (IH _ _ Hrun) as (IH0 & IHdom).
  assert (fill_column (count_for (decide_target_side (info_REF i) (info_ALT i) allele))
            idx (idx + 1) 0 (info_GT i) st = Ok st1) as Hcol'.
  { by destruct (decide_target_side _ _ _). }
  destruct (fill_column_same_but _ _ _ _ _ _ _ Hcol') as (_ & _ & Hsame & _).
  destruct (fill_column_exact _ _ _ _ _ _ _ Hcol') as (_ & _ & _ & Hdom).
  split.
  - intros i'. rewrite IH0. apply Hsame. lia.
  - intros i' j. by rewrite IHdom.
Qed.

(** The column of a panel entry that is in the matrix, after the loop. *)
Lemma fill_table_present matrix idx panel st st' k rsid allele i :
  fill_table matrix idx panel st = Ok st' →
  idx ≤ k → panel !! (k - idx) = Some (rsid, allele) →
  matrix !! rsid = Some i →
  let count := count_for (decide_target_side (info_REF i) (info_ALT i) allele) in
  (∀ si gt, info_GT i !! si = Some gt →
     ∃ v, count gt = Ok v ∧ cell st' si (k + 1) = Some v)
  ∧ (∀ si, length (info_GT i) ≤ si → cell st' si (k + 1) = cell st si (k + 1))
  ∧ (all_na_flags st' !! k = Some true ↔
       all_na_flags st !! k = Some true
       ∧ ∀ gt, gt ∈ info_GT i → count gt = Ok "NA").
Proof.
  intros Hrun Hle Hk Hi count. revert idx st Hrun Hle Hk.
  induction panel as [|[rs al] panel IH]; intros idx st Hrun Hle Hk; [done|].
  cbn [fill_table] in Hrun.
  destruct (decide (k = idx)) as [-> | Hne].
  - rewrite Nat.sub_diag in Hk. cbn in Hk. simplify_eq. rewrite Hi in Hrun.
    apply bind_Ok_inv in Hrun as (st1 & Hcol & Hrun).
    assert (fill_column count idx (idx + 1) 0 (info_GT i) st = Ok st1) as Hcol'.
    { unfold count. by destruct (decide_target_side _ _ _). }
    destruct (fill_column_exact _ _ _ _ _ _ _ Hcol') as (Ha & Hb & Hc & _).
    destruct (fill_table_absent matrix (S idx) panel st1 st' idx Hrun)
      as (_ & _ & Hcells & Hflag).
    { intros ? ? ?. lia. }
    split_and!.
    + intros si gt Hgt. destruct (Ha si gt Hgt) as (v & Hv & Hcell).
      exists v. split; [done|]. by rewrite Hcells.
    + intros si Hsi. rewrite Hcells. apply Hb. lia.
    + by rewrite Hflag.
  - assert (Hk' : panel !! (k - S idx) = Some (rsid, allele)).
    { by replace (k - idx) with (S (k - S idx)) in Hk by lia. }
    assert (∃ st1, fill_table matrix (S idx) panel st1 = Ok st'
              ∧ (∀ si, cell st1 si (k + 1) = cell st si (k + 1))
              ∧ all_na_flags st1 !! k = all_na_flags st !! k)
      as (st1 & Hrun1 & Hcells1 & Hflag1).
    { destruct (matrix !! rs) as [i'|]; [|by exists st].
      apply bind_Ok_inv in Hrun as (st1 & Hcol & Hrun). exists st1.
      assert (same_but (idx + 1) idx st st1) as (_ & _ & Hc & Hf).
      { destruct (decide_target_side (info_REF i') _ _);
          by eapply fill_column_same_but. }
      split_and!; [done | |by apply Hf].
      intros si. apply Hc. lia. }
    destruct (IH (S idx) st1 Hrun1 ltac:(lia) Hk') as (Ha & Hb & Hc).
    split_and!.
    + done.
    + intros si Hsi. by rewrite Hb, Hcells1.
    + by rewrite Hc, Hflag1.
Qed.

Lemma assemble_sizes samples matrix panel st :
  assemble samples matrix panel = Ok st →
  length (rows st) = length samples
  ∧ length (all_na_flags st) = length panel.
Proof.
  intros Hrun.
  destruct (fill_table_absent matrix 0 panel _ st (length panel) Hrun)
    as (Hrows & Hflags & _).
  { intros rs al _ Hk. rewrite Nat.sub_0_r in Hk.
    apply lookup_lt_Some in Hk. lia. }
  cbn [init_store rows all_na_flags] in Hrows, Hflags.
  by rewrite length_map in Hrows; rewrite length_replicate in Hflags.
Qed.

Lemma cell_lt_rows st si j : is_Some (cell st si j) → si < length (rows st).
Proof.
  unfold cell. destruct (rows st !! si) as [row|] eqn:Hrow; cbn.
  - intros _. by eapply lookup_lt_Some.
  - by intros [? ?].
Qed.

(** X15. In a completed table, the cell of a sample under a panel entry
    whose variant is in the matrix holds the count of the sample's genotype:
    the ALT count, the REF count or the unmatched value, by the side the
    resolver gives for the variant's ref and alt and the entry's allele. *)
Theorem cell_is_the_count samples matrix panel st k rsid allele i si gt :
  assemble samples matrix panel = Ok st →
  panel !! k = Some (rsid, allele) →
  matrix !! rsid = Some i →
  info_GT i !! si = Some gt →
  ∃ v, count_for (decide_target_side (info_REF i) (info_ALT i) allele) gt = Ok v
       ∧ cell st si (k + 1) = Some v.
Proof.
  intros Hrun Hk Hi Hgt.
  destruct (fill_table_present matrix 0 panel _ st k rsid allele i Hrun)
    as (Ha & _); [lia | by rewrite Nat.sub_0_r | done |].
  by apply Ha.
Qed.

Lemma cell_is_the_count_witness :
  ∃ v, count_for (decide_target_side "G" "A" "a") "0|1" = Ok v
       ∧ cell (Store [["S1"; "1"]] [false] [(0, 1)]) 0 (0 + 1) = Some v.
Proof.
  apply (cell_is_the_count ["S1"] {[ "rsX" := Info "G" "A" ["0|1"] ]}
           [("rsX", "a")] (Store [["S1"; "1"]] [false] [(0, 1)])
           0 "rsX" "a" (Info "G" "A" ["0|1"]) 0 "0|1");
    vm_compute; reflexivity.
Defined.

(** X16. In a completed table, the all-NA flag of a column is still set
    exactly when the column holds ["NA"] for every sample. *)
Theorem flag_iff_column_all_NA samples matrix panel st k :
  assemble samples matrix panel = Ok st →
  k < length panel →
  all_na_flags st !! k = Some true ↔
    ∀ si, si < length samples → cell st si (k + 1) = Some "NA".
Proof.
  intros Hrun Hk.
  destruct (assemble_sizes _ _ _ _ Hrun) as [Hrows _].
  destruct (lookup_lt_is_Some_2 panel k Hk) as [[rsid allele] Hpanel].
  destruct (matrix !! rsid) as [i|] eqn:Hi.
  - destruct (fill_table_present matrix 0 panel _ st k rsid allele i Hrun)
      as (Ha & Hb & Hc); [lia | by rewrite Nat.sub_0_r | done |].
    rewrite Hc, init_store_flag by done. split.
    + intros [_ Hall] si Hsi.
      destruct (info_GT i !! si) as [gt|] eqn:Hgt.
      * destruct (Ha si gt Hgt) as (v & Hv & ->).
        rewrite (Hall gt) in Hv by (by eapply list_elem_of_lookup_2).
        by simplify_eq.
      * rewrite Hb by (by apply lookup_ge_None).
        apply init_store_cell; [done | lia].
    + intros Hall. split; [done|].
      intros gt (si & Hgt)%list_elem_of_lookup_1.
      destruct (Ha si gt Hgt) as (v & Hv & Hcell).
      rewrite Hall in Hcell; [by simplify_eq|].
      rewrite <- Hrows. apply (cell_lt_rows st si (k + 1)). by rewrite Hcell.
  - destruct (fill_table_absent matrix 0 panel _ st k Hrun)
      as (_ & _ & Hcells & Hflag).
    { intros rs al _. rewrite Nat.sub_0_r, Hpanel. by intros [= <- <-]. }
    rewrite Hflag, init_store_flag by done. split; [|done].
    intros _ si Hsi. rewrite Hcells. apply init_store_cell; [done | lia].
Qed.

Lemma flag_iff_column_all_NA_witness :
  [false; true] !! 1 = Some true ↔
    ∀ si, si < length ["S1"] →
      cell (Store [["S1"; "1"; "NA"]] [false; true] [(0, 1)]) si (1 + 1)
      = Some "NA".
Proof.
  apply (flag_iff_column_all_NA ["S1"] {[ "rs1" := Info "A" "G" ["0|1"] ]}
           [("rs1", "G"); ("rs2", "A")]
           (Store [["S1"; "1"; "NA"]] [false; true] [(0, 1)]) 1);
    [vm_compute; reflexivity | cbn; lia].
Defined.

(** X17. In a completed table, every cell after the [sampleid] column is
    one of the four tokens ["0"], ["1"], ["2"], ["NA"]. *)
Theorem cells_are_tokens samples matrix panel st si j :
  assemble samples matrix panel = Ok st →
  si < length samples → 1 ≤ j ≤ length panel →
  ∃ v, cell st si j = Some v ∧ is_token (Ok v).
Proof.
  intros Hrun Hsi Hj.
  destruct j as [|k]; [lia|]. replace (S k) with (k + 1) by lia.
  destruct (lookup_lt_is_Some_2 panel k) as [[rsid allele] Hpanel]; [lia|].
  assert (cell (init_store samples panel) si (k + 1) = Some "NA") as Hinit.
  { apply init_store_cell; [done | lia]. }
  destruct (matrix !! rsid) as [i|] eqn:Hi.
  - destruct (fill_table_present matrix 0 panel _ st k rsid allele i Hrun)
      as (Ha & Hb & _); [lia | by rewrite Nat.sub_0_r | done |].
    destruct (info_GT i !! si) as [gt|] eqn:Hgt.
    + destruct (Ha si gt Hgt) as (v & Hv & ->). exists v. split; [done|].
      rewrite <- Hv. apply count_for_token.
    + exists "NA". rewrite Hb by (by apply lookup_ge_None).
      split; [done|]. unfold is_token. by auto 10.
  - destruct (fill_table_absent matrix 0 panel _ st k Hrun)
      as (_ & _ & Hcells & _).
    { intros rs al _. rewrite Nat.sub_0_r, Hpanel. by intros [= <- <-]. }
    exists "NA". rewrite Hcells. split; [done|]. unfold is_token. by auto 10.
Qed.

Lemma cells_are_tokens_witness :
  ∃ v, cell (Store [["S1"; "1"; "NA"]] [false; true] [(0, 1)]) 0 1 = Some v
       ∧ is_token (Ok v).
Proof.
  apply (cells_are_tokens ["S1"] {[ "rs1" := Info "A" "G" ["0|1"] ]}
           [("rs1", "G"); ("rs2", "A")]
           (Store [["S1"; "1"; "NA"]] [false; true] [(0, 1)]) 0 1);
    [vm_compute; reflexivity | cbn; lia | cbn; lia].
Defined.

Lemma assemble_shape samples matrix panel st :
  assemble samples matrix panel = Ok st →
  length (rows st) = length samples
  ∧ length (all_na_flags st) = length panel
  ∧ ∀ si row, rows st !! si = Some row →
      length row = S (length panel) ∧ row !! 0 = samples !! si.
Proof.
  intros Hrun. destruct (assemble_sizes _ _ _ _ Hrun) as [Hrows Hflags].
  split_and!; [done | done |]. intros si row Hrow.
  assert (si < length samples) as Hsi.
  { rewrite <- Hrows. by eapply lookup_lt_Some. }
  destruct (fill_table_frame _ _ _ _ _ Hrun) as [H0 Hdom].
  assert (Hcell : ∀ j, cell st si j = row !! j).
  { intros j. unfold cell. by rewrite Hrow. }
  destruct (lookup_lt_is_Some_2 samples si Hsi) as [s Hs].
  assert (Hinit : ∀ j, cell (init_store samples panel) si j
                       = (s :: replicate (length panel) "NA") !! j).
  { intros j. unfold cell, init_store; cbn.
    by rewrite list_lookup_fmap, Hs. }
  split.
  - assert (Hlen : ∀ j, j < length row ↔ j < S (length panel)).
    { intros j. rewrite <- lookup_lt_is_Some, <- Hcell, Hdom, Hinit.
      rewrite lookup_lt_is_Some. cbn. by rewrite length_replicate. }
    pose proof (Hlen (S (length panel))). pose proof (Hlen (length panel)). lia.
  - by rewrite <- Hcell, H0, Hinit, Hs.
Qed.

(** X18. A completed table has one row per sample and one flag per panel
    entry; every row starts with its sample's name and has one cell per
    panel entry after it. *)
Theorem table_shape samples matrix panel st :
  assemble samples matrix panel = Ok st →
  length (rows st) = length samples
  ∧ length (all_na_flags st) = length panel
  ∧ ∀ si row, rows st !! si = Some row →
      length row = S (length panel) ∧ row !! 0 = samples !! si.
Proof. apply assemble_shape. Qed.

Lemma table_shape_witness :
  length (rows (Store [["S1"; "1"; "NA"]] [false; true] [(0, 1)])) = length ["S1"]
  ∧ length (all_na_flags (Store [["S1"; "1"; "NA"]] [false; true] [(0, 1)]))
    = length [("rs1", "G"); ("rs2", "A")]
  ∧ ∀ si row,
      rows (Store [["S1"; "1"; "NA"]] [false; true] [(0, 1)]) !! si = Some row →
      length row = S (length [("rs1", "G"); ("rs2", "A")])
      ∧ row !! 0 = ["S1"] !! si.
Proof.
  apply (table_shape ["S1"] {[ "rs1" := Info "A" "G" ["0|1"] ]}
           [("rs1", "G"); ("rs2", "A")]
           (Store [["S1"; "1"; "NA"]] [false; true] [(0, 1)])).
  vm_compute; reflexivity.
Defined.

(** *** Errors of the assembly *)

Lemma set_cell_Raise si col val st e :
  set_cell si col val st = Raise e → e = IndexError.
Proof.
  unfold set_cell. destruct (rows st !! si) as [row|]; [|congruence].
  destruct (col <? length row); congruence.
Qed.

Lemma clear_flag_Raise idx st e : clear_flag idx st = Raise e → e = IndexError.
Proof. unfold clear_flag. destruct (idx <? _); congruence. Qed.

Lemma fill_column_Raise count idx col si gts st e :
  (∀ gt, ∃ val, count gt = Ok val) →
  fill_column count idx col si gts st = Raise e → e = IndexError.
Proof.
  intros Hcount. revert si st.
  induction gts as [|gt gts IH]; intros si st; cbn; [done|].
  destruct (Hcount gt) as [val ->]; cbn.
  destruct (set_cell si col val st) as [st1|e1] eqn:Hset; cbn;
    [|intros [= <-]; by eapply set_cell_Raise].
  destruct (negb _); cbn; [|by apply IH].
  destruct (clear_flag idx st1) as [st2|e2] eqn:Hflag; cbn; [by apply IH|].
  intros [= <-]. by eapply clear_flag_Raise.
Qed.

Lemma count_for_Ok s gt : ∃ val, count_for s gt = Ok val.
Proof. apply is_token_Ok, count_for_token. Qed.

(** One turn of the loop over the panel. *)
Lemma fill_table_cons matrix idx rsid allele panel st :
  fill_table matrix idx ((rsid, allele) :: panel) st =
    match matrix !! rsid with
    | None => fill_table matrix (S idx) panel st
    | Some i =>
        st1 ← fill_column
                 (count_for (decide_target_side (info_REF i) (info_ALT i) allele))
                 idx (idx + 1) 0 (info_GT i) st;
        fill_table matrix (S idx) panel st1
    end.
Proof.
  cbn [fill_table]. destruct (matrix !! rsid) as [i|]; [|done].
  by destruct (decide_target_side _ _ _).
Qed.

Lemma fill_table_Raise matrix idx panel st e :
  fill_table matrix idx panel st = Raise e → e = IndexError.
Proof.
  revert idx st. induction panel as [|[rsid allele] panel IH]; intros idx st;
    [done|].
  rewrite fill_table_cons.
  destruct (matrix !! rsid) as [i|]; [|by apply IH].
  destruct (fill_column _ _ _ _ _ _) as [st1|e1] eqn:Hrun; cbn; [by apply IH|].
  intros [= <-]. eapply fill_column_Raise; [|exact Hrun]. apply count_for_Ok.
Qed.

(** As [fill_table_shaped], looking only at the variants the panel names. *)
Lemma fill_table_fits matrix ns np idx panel st :
  (∀ rsid allele i, (rsid, allele) ∈ panel → matrix !! rsid = Some i →
     length (info_GT i) ≤ ns) →
  shaped ns np st → idx + length panel ≤ np →
  ∃ st', fill_table matrix idx panel st = Ok st' ∧ shaped ns np st'.
Proof.
  revert idx st.
  induction panel as [|[rsid allele] panel IH]; intros idx st Hfit Hst Hidx;
    cbn in *.
  { eauto. }
  assert (Hfit' : ∀ rs al i, (rs, al) ∈ panel → matrix !! rs = Some i →
            length (info_GT i) ≤ ns).
  { intros rs al i ?. apply (Hfit rs al). by apply list_elem_of_further. }
  destruct (matrix !! rsid) as [i|] eqn:Hi; [|apply IH; [done|done|lia]].
  assert (∃ st1,
    match decide_target_side (info_REF i) (info_ALT i) allele with
    | REF => fill_column gt_count_for_ref idx (idx + 1) 0 (info_GT i) st
    | ALT => fill_column gt_count_for_alt idx (idx + 1) 0 (info_GT i) st
    | NONE => fill_column (fun gt => Ok (unmatched_val gt)) idx (idx + 1) 0
                (info_GT i) st
    end = Ok st1 ∧ shaped ns np st1) as (st1 & -> & Hst1).
  { pose proof (Hfit rsid allele i (list_elem_of_here _ _) Hi).
    destruct (decide_target_side _ _ _);
      (apply fill_column_shaped; [|done|lia|lia]); intros gt.
    - apply (count_for_Ok REF).
    - apply (count_for_Ok ALT).
    - apply (count_for_Ok NONE). }
  cbn. apply IH; [done|done|lia].
Qed.

(** X19. The assembly raises nothing but [IndexError], and it completes
    exactly when every variant the panel names has at most as many
    genotypes in the matrix as there are samples. *)
Theorem assembly_completes_iff samples matrix panel :
  (∀ e, assemble samples matrix panel = Raise e → e = IndexError)
  ∧ ((∃ st, assemble samples matrix panel = Ok st) ↔
       ∀ rsid allele i, (rsid, allele) ∈ panel → matrix !! rsid = Some i →
         length (info_GT i) ≤ length samples).
Proof.
  split; [intros e; apply fill_table_Raise|]. split.
  - intros [st Hrun] rsid allele i (k & Hk)%list_elem_of_lookup_1 Hi.
    destruct (assemble_sizes _ _ _ _ Hrun) as [Hrows _].
    destruct (info_GT i) as [|gt0 gts0] eqn:HGT; [cbn; lia|].
    rewrite <- HGT in *.
    assert (is_Some (info_GT i !! (length (info_GT i) - 1))) as [gt Hgt].
    { apply lookup_lt_is_Some. rewrite HGT. cbn. lia. }
    destruct (fill_table_present matrix 0 panel _ st k rsid allele i Hrun)
      as (Ha & _); [lia | by rewrite Nat.sub_0_r | done |].
    destruct (Ha _ gt Hgt) as (v & _ & Hcell).
    assert (length (info_GT i) - 1 < length (rows st)).
    { apply (cell_lt_rows st _ (k + 1)). by rewrite Hcell. }
    lia.
  - intros Hfit.
    destruct (fill_table_fits matrix (length samples) (length panel) 0 panel
                (init_store samples panel)) as (st & Hrun & _);
      [done | apply init_store_shaped | lia |].
    by exists st.
Qed.

(** *** The warnings, exactly *)

Lemma warn_columns_inv panel idx flags msgs m :
  warn_columns panel idx flags = Ok msgs → m ∈ msgs →
  ∃ k rsid allele,
    m = WarnAllNA rsid allele
    ∧ flags !! k = Some true ∧ panel !! (idx + k) = Some (rsid, allele).
Proof.
  revert idx msgs. induction flags as [|flag flags IH]; intros idx msgs Hrun Hm.
  { cbn in Hrun. simplify_eq. by apply elem_of_nil in Hm. }
  cbn [warn_columns] in Hrun.
  assert (Hlater : ∀ rest, warn_columns panel (S idx) flags = Ok rest → m ∈ rest →
    ∃ k rsid allele, m = WarnAllNA rsid allele
      ∧ (flag :: flags) !! k = Some true ∧ panel !! (idx + k) = Some (rsid, allele)).
  { intros rest Hrest Hin.
    destruct (IH _ _ Hrest Hin) as (k & rs & al & -> & Hflag & Hpanel).
    exists (S k), rs, al. split_and!; [done | done |].
    by replace (idx + S k) with (S idx + k) by lia. }
  destruct flag; [|by eapply Hlater].
  destruct (panel !! idx) as [[rs al]|] eqn:Hpanel; [|done].
  apply bind_Ok_inv in Hrun as (rest & Hrest & [= <-]).
  apply elem_of_cons in Hm as [-> | Hm]; [|by eapply Hlater].
  exists 0, rs, al. split_and!; [done | done |]. by rewrite Nat.add_0_r.
Qed.

(** X20. With one flag per panel entry the warning loop completes. It
    prints the all-NA warning of an entry exactly when a flag that is still
    set stands at the position of such an entry, and the closing "no all-NA
    column" message exactly when no flag is set. *)
Theorem warnings_exact panel flags :
  length flags = length panel →
  ∃ msgs, warnings panel flags = Ok msgs
    ∧ (∀ rsid allele,
         WarnAllNA rsid allele ∈ msgs ↔
           ∃ k, flags !! k = Some true ∧ panel !! k = Some (rsid, allele))
    ∧ (NoAllNA ∈ msgs ↔ ∀ k, flags !! k ≠ Some true).
Proof.
  intros Hlen. unfold warnings.
  destruct (warn_columns_Ok panel 0 flags) as [msgs Hmsgs]; [lia|].
  rewrite Hmsgs; cbn. eexists; split; [done|].
  assert (Hwarn : ∀ rsid allele,
    WarnAllNA rsid allele ∈ msgs ↔
      ∃ k, flags !! k = Some true ∧ panel !! k = Some (rsid, allele)).
  { intros rsid allele. split.
    - intros Hin. destruct (warn_columns_inv _ _ _ _ _ Hmsgs Hin)
        as (k & rs & al & [= <- <-] & ? & ?). by exists k.
    - intros (k & ? & ?). by eapply (warn_columns_flagged panel 0 flags msgs k). }
  assert (Hno : NoAllNA ∉ msgs).
  { intros Hin. by destruct (warn_columns_inv _ _ _ _ _ Hmsgs Hin)
      as (k & rs & al & ? & _). }
  destruct msgs as [|m msgs]; cbn.
  - split.
    + intros rsid allele. rewrite <- Hwarn. split.
      * by intros [=]%list_elem_of_singleton.
      * by intros ?%elem_of_nil.
    + split; [|intros _; apply list_elem_of_here].
      intros _ k Hk.
      destruct (lookup_lt_is_Some_2 panel k) as [[rs al] Hpanel].
      { rewrite <- Hlen. by eapply lookup_lt_Some. }
      assert (WarnAllNA rs al ∈ []) as Hin by (apply Hwarn; eauto).
      by apply elem_of_nil in Hin.
  - split; [done|]. split; [done|].
    intros Hnone. exfalso.
    destruct (warn_columns_inv _ _ _ _ m Hmsgs (list_elem_of_here _ _))
      as (k & _ & _ & _ & Hflag & _).
    by apply (Hnone k).
Qed.

Lemma warnings_exact_witness :
  ∃ msgs, warnings [("rs1", "G"); ("rs2", "A")] [false; true] = Ok msgs
    ∧ (∀ rsid allele,
         WarnAllNA rsid allele ∈ msgs ↔
           ∃ k, [false; true] !! k = Some true
                ∧ [("rs1", "G"); ("rs2", "A")] !! k = Some (rsid, allele))
    ∧ (NoAllNA ∈ msgs ↔ ∀ k, [false; true] !! k ≠ Some true).
Proof.
  apply (warnings_exact [("rs1", "G"); ("rs2", "A")] [false; true]).
  reflexivity.
Defined.

(** *** The whole run *)

Lemma main_Ok_inv panel lines out :
  main panel lines = Ok out →
  panel ≠ []
  ∧ ∃ samples matrix st msgs,
      read_matrix lines = Ok (samples, matrix)
      ∧ assemble samples matrix panel = Ok st
      ∧ warnings panel (all_na_flags st) = Ok msgs
      ∧ out = Output ("sampleid" :: map (fun '(rs, allele) => rs ++ "_" ++ allele) panel)
                     (rows st) msgs.
Proof.
  unfold main. destruct panel as [|entry panel]; [done|]. cbn [length Nat.eqb].
  intros Hrun. split; [done|].
  apply bind_Ok_inv in Hrun as ([samples matrix] & Hread & Hrun).
  apply bind_Ok_inv in Hrun as (st & Hasm & Hrun).
  apply bind_Ok_inv in Hrun as (msgs & Hmsgs & [= <-]).
  by exists samples, matrix, st, msgs.
Qed.



(** X22. End to end: in the output of a run, the cell of a sample under
    the column named [rsid_allele] holds the count of the sample's genotype
    for that variant, by the side the resolver gives. *)
Theorem main_cell_is_the_count panel lines out samples matrix k rsid allele i si gt :
  main panel lines = Ok out →
  read_matrix lines = Ok (samples, matrix) →
  panel !! k = Some (rsid, allele) →
  matrix !! rsid = Some i →
  info_GT i !! si = Some gt →
  out_cols out !! (k + 1) = Some (rsid ++ "_" ++ allele)%string
  ∧ ∃ v row,
      count_for (decide_target_side (info_REF i) (info_ALT i) allele) gt = Ok v
      ∧ out_rows out !! si = Some row ∧ row !! (k + 1) = Some v.
Proof.
  intros (_ & samples' & matrix' & st & msgs & Hread' & Hasm & _ & ->)%main_Ok_inv
    Hread Hk Hi Hgt.
  rewrite Hread in Hread'. simplify_eq. cbn [out_cols out_rows]. split.
  - replace (k + 1) with (S k) by lia. cbn. clear -Hk. revert k Hk.
    induction panel as [|entry panel IH]; intros [|k] Hk; cbn in *; [done..| |].
    + by simplify_eq.
    + by apply IH.
  - destruct (fill_table_present matrix' 0 panel _ st k rsid allele i Hasm)
      as (Ha & _); [lia | by rewrite Nat.sub_0_r | done |].
    destruct (Ha si gt Hgt) as (v & Hv & Hcell).
    apply cell_Some in Hcell as (row & Hrow & Hcell). by exists v, row.
Qed.

Lemma main_cell_is_the_count_witness :
  out_cols (Output ["sampleid"; "rsX_A"] [["S1"; "1"]] [NoAllNA]) !! (0 + 1)
  = Some ("rsX" ++ "_" ++ "A")%string
  ∧ ∃ v row,
      count_for (decide_target_side "G" "A" "A") "0|1" = Ok v
      ∧ out_rows (Output ["sampleid"; "rsX_A"] [["S1"; "1"]] [NoAllNA]) !! 0
        = Some row
      ∧ row !! (0 + 1) = Some v.
Proof.
  apply (main_cell_is_the_count [("rsX", "A")]
           [tsv_line ["CHROM"; "POS"; "ID"; "REF"; "ALT"; "S1"];
            tsv_line ["1"; "100"; "rsX"; "G"; "A"; "0|1"]]
           (Output ["sampleid"; "rsX_A"] [["S1"; "1"]] [NoAllNA])
           ["S1"] {[ "rsX" := Info "G" "A" ["0|1"] ]}
           0 "rsX" "A" (Info "G" "A" ["0|1"]) 0 "0|1");
    vm_compute; reflexivity.
Defined.

Lemma main_runs panel header_line rest :
  panel ≠ [] → header_line ≠ "" → 6 ≤ n_fields header_line →
  rows_fit (header_line :: rest) →
  ∃ out, main panel (header_line :: rest) = Ok out.
Proof.
  intros Hpanel Hne Hlen Hfit.
  destruct (read_rows_Ok (header_samples header_line) rest ∅) as [matrix Hrows].
  assert (read_matrix (header_line :: rest)
          = Ok (header_samples header_line, matrix)) as Hread.
  { by rewrite read_matrix_unfold, Hrows. }
  destruct (fill_table_shaped matrix (length (header_samples header_line))
              (length panel) 0 panel
              (init_store (header_samples header_line) panel))
    as (st & Hrun & Hst).
  { intros rsid i Hi.
    by rewrite (read_matrix_GT_length _ _ _ Hread Hfit rsid i Hi). }
  { apply init_store_shaped. }
  { lia. }
  destruct (warn_columns_Ok panel 0 (all_na_flags st)) as [msgs Hmsgs].
  { rewrite (shaped_flags _ _ _ Hst). lia. }
  unfold main. replace (length panel =? 0) with false
    by (by destruct panel).
  rewrite Hread. unfold mbind, result_bind, bind; cbn beta iota.
  unfold assemble. rewrite Hrun. unfold warnings, mbind, result_bind, bind.
  rewrite Hmsgs. eauto.
Qed.



End assembly_more.

(** ** The panel loader *)

Section panel.
Implicit Types (row header : list string) (rows : list (list string)).
Implicit Types (seen : gset string) (ordered panel : list (string * string)).

(** *** Stripping twice *)

Lemma rstrip_with_cons p c s :
  Py.rstrip_with p (String c s) =
    match Py.rstrip_with p s with
    | EmptyString => if p c then EmptyString else String c EmptyString
    | r => String c r
    end.
Proof. done. Qed.

Lemma rstrip_with_idemp p s :
  Py.rstrip_with p (Py.rstrip_with p s) = Py.rstrip_with p s.
Proof.
  induction s as [|c s IH]; [done|]. rewrite rstrip_with_cons.
  destruct (Py.rstrip_with p s) as [|c' r] eqn:Hr.
  - destruct (p c) eqn:Hp; [done|]. by rewrite rstrip_with_cons, Hp.
  - by rewrite rstrip_with_cons, IH.
Qed.

Lemma lstrip_head s :
  Py.lstrip s = "" ∨ ∃ c r, Py.lstrip s = String c r ∧ Py.is_space c = false.
Proof.
  induction s as [|c s IH]; [by left|]. cbn [Py.lstrip].
  destruct (Py.is_space c) eqn:Hc; [done|]. right. eauto.
Qed.

Lemma strip_idemp s : Py.strip (Py.strip s) = Py.strip s.
Proof.
  unfold Py.strip.
  assert (Py.lstrip (Py.rstrip_with Py.is_space (Py.lstrip s))
          = Py.rstrip_with Py.is_space (Py.lstrip s)) as ->.
  { destruct (lstrip_head s) as [-> | (c & r & -> & Hc)]; [done|].
    rewrite rstrip_with_cons. destruct (Py.rstrip_with Py.is_space r).
    - rewrite Hc. cbn [Py.lstrip]. by rewrite Hc.
    - cbn [Py.lstrip]. by rewrite Hc. }
  apply rstrip_with_idemp.
Qed.

Lemma upper_nonempty s : s ≠ "" → Py.upper s ≠ "".
Proof. by destruct s. Qed.

(** *** The loop *)

Lemma panel_rows_cons snp_idx allele_idx row rows seen ordered :
  panel_rows snp_idx allele_idx (row :: rows) seen ordered =
    match panel_entry snp_idx allele_idx row with
    | Some (rsid, allele) =>
        if bool_decide (rsid ∈ seen)
        then panel_rows snp_idx allele_idx rows seen ordered
        else panel_rows snp_idx allele_idx rows
               ({[rsid]} ∪ seen) (ordered ++ [(rsid, allele)])
    | None => panel_rows snp_idx allele_idx rows seen ordered
    end.
Proof.
  cbn [panel_rows]. unfold panel_entry.
  destruct (Nat.eqb_spec (length row) 0) as [Hlen|Hlen]; cbn [orb].
  { destruct row; [|done]. by rewrite lookup_nil. }
  destruct (Nat.leb_spec (length row) (Nat.max snp_idx allele_idx)) as [Hmax|Hmax].
  { destruct (row !! snp_idx) as [x|] eqn:Hx; cbn; [|done].
    destruct (row !! allele_idx) as [y|] eqn:Hy; cbn; [|done].
    apply lookup_lt_Some in Hx, Hy. lia. }
  destruct (lookup_lt_is_Some_2 row snp_idx) as [x ->]; [lia|].
  destruct (lookup_lt_is_Some_2 row allele_idx) as [y ->]; [lia|]. cbn.
  destruct (_ || _); [done|]. by rewrite strip_idemp.
Qed.

(** The subscripts [row[snp_idx]] and [row[allele_idx]] come after the
    test on the length of the row: the loop never raises. *)
Lemma panel_rows_Ok snp_idx allele_idx rows seen ordered :
  ∃ panel, panel_rows snp_idx allele_idx rows seen ordered = Ok panel.
Proof.
  revert seen ordered. induction rows as [|row rows IH]; intros seen ordered.
  - by exists ordered.
  - rewrite panel_rows_cons.
    destruct (panel_entry _ _ row) as [[rsid allele]|]; [|apply IH].
    destruct (bool_decide _); apply IH.
Qed.

Lemma panel_rows_prefix snp_idx allele_idx rows seen ordered panel :
  panel_rows snp_idx allele_idx rows seen ordered = Ok panel →
  ordered `prefix_of` panel.
Proof.
  revert seen ordered. induction rows as [|row rows IH]; intros seen ordered Hrun.
  { cbn in Hrun. by simplify_eq. }
  rewrite panel_rows_cons in Hrun.
  destruct (panel_entry _ _ row) as [[rsid allele]|]; [|by eapply IH].
  destruct (bool_decide _); [by eapply IH|].
  etrans; [|by eapply IH]. by apply prefix_app_r.
Qed.

Lemma panel_rows_app snp_idx allele_idx rows1 rows2 seen ordered panel :
  panel_rows snp_idx allele_idx (rows1 ++ rows2) seen ordered = Ok panel →
  ∃ panel1, panel_rows snp_idx allele_idx rows1 seen ordered = Ok panel1
            ∧ panel1 `prefix_of` panel.
Proof.
  revert seen ordered. induction rows1 as [|row rows1 IH]; intros seen ordered Hrun.
  { exists ordered. split; [done|]. by eapply panel_rows_prefix. }
  rewrite <- app_comm_cons, panel_rows_cons in Hrun. rewrite panel_rows_cons.
  destruct (panel_entry _ _ row) as [[rsid allele]|]; [|by apply IH].
  destruct (bool_decide _); by apply IH.
Qed.

Lemma panel_rows_NoDup snp_idx allele_idx rows seen ordered panel :
  panel_rows snp_idx allele_idx rows seen ordered = Ok panel →
  panel_inv seen ordered → NoDup panel.*1.
Proof.
  revert seen ordered. induction rows as [|row rows IH];
    intros seen ordered Hrun [Hseen Hnodup].
  { cbn in Hrun. by simplify_eq. }
  rewrite panel_rows_cons in Hrun.
  destruct (panel_entry _ _ row) as [[rsid allele]|]; [|by eapply IH].
  case_bool_decide as Hin; [by eapply IH|].
  eapply IH; [exact Hrun|]. split.
  - intros k. rewrite fmap_app, elem_of_app, elem_of_union, elem_of_singleton.
    cbn. rewrite list_elem_of_singleton, Hseen. tauto.
  - rewrite fmap_app. apply NoDup_app. split_and!; [done | |].
    + intros k Hk ?%list_elem_of_singleton. subst. by apply Hin, Hseen.
    + apply NoDup_singleton.
Qed.

Lemma panel_rows_entries snp_idx allele_idx rows seen ordered panel e :
  panel_rows snp_idx allele_idx rows seen ordered = Ok panel →
  e ∈ panel →
  e ∈ ordered ∨ ∃ row, row ∈ rows ∧ panel_entry snp_idx allele_idx row = Some e.
Proof.
  revert seen ordered. induction rows as [|row rows IH]; intros seen ordered Hrun He.
  { cbn in Hrun. simplify_eq. by left. }
  rewrite panel_rows_cons in Hrun.
  assert (Hlater : ∀ sn od, panel_rows snp_idx allele_idx rows sn od = Ok panel →
    e ∈ od ∨ ∃ r, r ∈ row :: rows ∧ panel_entry snp_idx allele_idx r = Some e).
  { intros sn od Hod. destruct (IH _ _ Hod He) as [?|(r & ? & ?)]; [by left|].
    right. exists r. split; [by apply list_elem_of_further | done]. }
  destruct (panel_entry _ _ row) as [[rsid allele]|] eqn:Hentry;
    [|by apply (Hlater _ _ Hrun)].
  destruct (bool_decide _); [by apply (Hlater _ _ Hrun)|].
  destruct (Hlater _ _ Hrun) as [[?|Hnew%list_elem_of_singleton]%elem_of_app|?];
    [by left | | by right].
  right. exists row. split; [apply list_elem_of_here | by subst].
Qed.

Lemma panel_rows_complete snp_idx allele_idx rows seen ordered panel row rsid allele :
  panel_rows snp_idx allele_idx rows seen ordered = Ok panel →
  (∀ k, k ∈ seen → k ∈ ordered.*1) →
  row ∈ rows → panel_entry snp_idx allele_idx row = Some (rsid, allele) →
  rsid ∈ panel.*1.
Proof.
  revert seen ordered. induction rows as [|r rows IH];
    intros seen ordered Hrun Hseen Hrow Hentry.
  { by apply elem_of_nil in Hrow. }
  rewrite panel_rows_cons in Hrun.
  assert (Hkeys : ∀ od, od `prefix_of` panel → ∀ k, k ∈ od.*1 → k ∈ panel.*1).
  { intros od [tl ->] k Hk. rewrite fmap_app, elem_of_app. by left. }
  apply elem_of_cons in Hrow as [-> | Hrow].
  - rewrite Hentry in Hrun. case_bool_decide as Hin.
    + apply (Hkeys ordered); [by eapply panel_rows_prefix | by apply Hseen].
    + apply (Hkeys (ordered ++ [(rsid, allele)])%list);
        [by eapply panel_rows_prefix|].
      rewrite fmap_app, elem_of_app. right. apply list_elem_of_here.
  - destruct (panel_entry _ _ r) as [[k a]|]; [|by eapply IH].
    case_bool_decide; [by eapply IH|].
    eapply IH; [exact Hrun | | done | done].
    intros k' Hk'. rewrite fmap_app, elem_of_app.
    apply elem_of_union in Hk' as [->%elem_of_singleton | Hk'].
    + right. apply list_elem_of_here.
    + left. by apply Hseen.
Qed.

Lemma read_panel_Ok_inv rows panel :
  read_panel rows = Ok panel →
  ∃ header_row rest snp_idx allele_idx,
    rows = header_row :: rest
    ∧ find_col (map Py.strip header_row) ["SNP"; "rsID"; "ID"] = Some snp_idx
    ∧ find_col (map Py.strip header_row) ["Allele"; "ALLELE"; "allele"]
      = Some allele_idx
    ∧ panel_rows snp_idx allele_idx rest ∅ [] = Ok panel.
Proof.
  destruct rows as [|header_row rest]; [done|]. unfold read_panel.
  destruct (find_col _ ["SNP"; _; _]) as [s|] eqn:Hs; [|done].
  destruct (find_col _ ["Allele"; _; _]) as [a|] eqn:Ha; [|done].
  intros Hrun. exists header_row, rest, s, a. by rewrite Hs, Ha.
Qed.

Lemma panel_inv_empty : panel_inv ∅ [].
Proof.
  split; [|constructor]. intros k. cbn. split.
  - by intros ?%elem_of_empty.
  - by intros ?%elem_of_nil.
Qed.

(** *** Finding the columns *)

Lemma find_header_None cand i0 header :
  find_header cand i0 header = None ↔
    ∀ h, h ∈ header → Py.lower h ≠ Py.lower cand.
Proof.
  revert i0. induction header as [|h0 header IH]; intros i0; cbn.
  { split; [|done]. by intros _ h ?%elem_of_nil. }
  destruct (String.eqb_spec (Py.lower h0) (Py.lower cand)) as [Heq|Hne].
  - split; [done|]. intros Hall. by destruct (Hall h0 (list_elem_of_here _ _)).
  - rewrite IH. split.
    + intros Hall h [->|?]%elem_of_cons; auto.
    + intros Hall h ?. apply Hall. by apply list_elem_of_further.
Qed.

Lemma find_header_Some cand i0 header i :
  find_header cand i0 header = Some i ↔
    ∃ j, i = i0 + j ∧ first_match cand header j.
Proof.
  revert i0. induction header as [|h0 header IH]; intros i0; cbn.
  { split; [done|]. by intros (j & _ & (h & ? & _) & _). }
  destruct (String.eqb_spec (Py.lower h0) (Py.lower cand)) as [Heq|Hne].
  - split.
    + intros [= <-]. exists 0. split; [lia|]. split; [by exists h0|].
      intros j' h ?. lia.
    + intros ([|j] & -> & (h & Hh & Hmatch) & Hfirst).
      * by rewrite Nat.add_0_r.
      * by destruct (Hfirst 0 h0 ltac:(lia) eq_refl).
  - rewrite IH. split.
    + intros (j & -> & (h & Hh & Hmatch) & Hfirst). exists (S j).
      split; [lia|]. split; [by exists h|].
      intros [|j'] h' Hj' Hh'; cbn in Hh'; [by simplify_eq|].
      apply (Hfirst j' h'); [lia | done].
    + intros ([|j] & -> & (h & Hh & Hmatch) & Hfirst); cbn in Hh.
      { by simplify_eq. }
      exists j. split; [lia|]. split; [by exists h|].
      intros j' h' Hj' Hh'. apply (Hfirst (S j') h'); [lia | done].
Qed.

Lemma find_col_None header cands :
  find_col header cands = None ↔
    ∀ cand h, cand ∈ cands → h ∈ header → Py.lower h ≠ Py.lower cand.
Proof.
  induction cands as [|cand cands IH]; cbn.
  { split; [|done]. by intros _ c h ?%elem_of_nil. }
  destruct (find_header cand 0 header) as [i|] eqn:Hfind.
  - split; [done|]. intros Hall. exfalso.
    apply find_header_Some in Hfind as (j & _ & (h & Hh & Hmatch) & _).
    apply (Hall cand h); [apply list_elem_of_here | | done].
    by eapply list_elem_of_lookup_2.
  - rewrite IH. rewrite find_header_None in Hfind. split.
    + intros Hall c h [->|?]%elem_of_cons ?; [by apply Hfind | by apply Hall].
    + intros Hall c h ? ?. apply Hall; [by apply list_elem_of_further | done].
Qed.

Lemma find_col_Some header cands i :
  find_col header cands = Some i ↔
    ∃ n cand,
      cands !! n = Some cand
      ∧ first_match cand header i
      ∧ ∀ m c h, m < n → cands !! m = Some c → h ∈ header →
          Py.lower h ≠ Py.lower c.
Proof.
  induction cands as [|cand cands IH]; cbn.
  { split; [done|]. by intros (n & c & ? & _). }
  destruct (find_header cand 0 header) as [i'|] eqn:Hfind.
  - apply find_header_Some in Hfind as (j & -> & Hmatch). cbn.
    split.
    + intros [= <-]. exists 0, cand. split_and!; [done | done |].
      intros m c h ?. lia.
    + intros ([|n] & c & Hc & Hi & Hearlier); cbn in Hc.
      * simplify_eq. f_equal.
        destruct Hmatch as [(h & Hh & Hm) Hfirst], Hi as [(h' & Hh' & Hm') Hfirst'].
        destruct (Nat.lt_trichotomy i j) as [Hlt|[->|Hlt]]; [|done|].
        -- by destruct (Hfirst i h' Hlt Hh').
        -- by destruct (Hfirst' j h Hlt Hh).
      * exfalso. destruct Hmatch as [(h & Hh & Hm) _].
        apply (Hearlier 0 cand h); [lia | done | | done].
        by eapply list_elem_of_lookup_2.
  - rewrite find_header_None in Hfind. rewrite IH. split.
    + intros (n & c & Hc & Hi & Hearlier). exists (S n), c.
      split_and!; [done | done |].
      intros [|m] c' h Hm Hc' Hh; cbn in Hc'.
      * simplify_eq. by apply Hfind.
      * apply (Hearlier m c' h); [lia | done | done].
    + intros ([|n] & c & Hc & Hi & Hearlier); cbn in Hc.
      * simplify_eq. destruct Hi as [(h & Hh & Hm) _].
        destruct (Hfind h); [by eapply list_elem_of_lookup_2 | done].
      * exists n, c. split_and!; [done | done |].
        intros m c' h Hm Hc' Hh. apply (Hearlier (S m) c' h); [lia | done | done].
Qed.

(** X24. [find_col] takes the candidate names in order: it returns the
    first header cell equal, up to case, to the first candidate that any
    cell equals. A later candidate is used only when no cell equals an
    earlier one, wherever the columns stand in the header. *)
Theorem find_col_preference header cands i :
  find_col header cands = Some i ↔
    ∃ n cand,
      cands !! n = Some cand
      ∧ first_match cand header i
      ∧ ∀ m c h, m < n → cands !! m = Some c → h ∈ header →
          Py.lower h ≠ Py.lower c.
Proof. apply find_col_Some. Qed.

(** *** The panel *)

Lemma read_panel_total rows :
  (∃ panel, read_panel rows = Ok panel) ∨ read_panel rows = Raise SystemExit.
Proof.
  destruct rows as [|header_row rest]; [by right|]. unfold read_panel.
  destruct (find_col _ ["SNP"; _; _]) as [s|]; [|by right].
  destruct (find_col _ ["Allele"; _; _]) as [a|]; [|by right].
  left. apply panel_rows_Ok.
Qed.


(** X26. The variant identifiers of a loaded panel are pairwise
    distinct. *)
Theorem read_panel_keys_distinct rows panel :
  read_panel rows = Ok panel → NoDup panel.*1.
Proof.
  intros (h & rest & s & a & _ & _ & _ & Hrun)%read_panel_Ok_inv.
  eapply panel_rows_NoDup; [exact Hrun | apply panel_inv_empty].
Qed.

Lemma read_panel_keys_distinct_witness :
  NoDup [("rs1", "A"); ("rs4", "T")].*1.
Proof.
  apply (read_panel_keys_distinct
           [["SNP"; " Allele "; "x"]; ["rs1"; "a"]; []; ["rs2"];
            [" rs1 "; "g"]; ["rs3"; " "]; ["rs4"; "t"]]).
  vm_compute; reflexivity.
Defined.

(** X27. Every entry of a loaded panel has a non-empty identifier with no
    white space around it and a non-empty allele in upper case. *)
Theorem read_panel_entries_clean rows panel rsid allele :
  read_panel rows = Ok panel → (rsid, allele) ∈ panel →
  rsid ≠ "" ∧ Py.strip rsid = rsid ∧ allele ≠ "" ∧ Py.upper allele = allele.
Proof.
  intros (h & rest & s & a & _ & _ & _ & Hrun)%read_panel_Ok_inv Hin.
  destruct (panel_rows_entries _ _ _ _ _ _ _ Hrun Hin)
    as [?%elem_of_nil|(row & _ & Hentry)]; [done|].
  unfold panel_entry in Hentry.
  destruct (row !! s) as [x|]; cbn in Hentry; [|done].
  destruct (row !! a) as [y|]; cbn in Hentry; [|done].
  destruct (String.eqb_spec (Py.strip x) "") as [|Hx]; [done|].
  destruct (String.eqb_spec (Py.strip y) "") as [|Hy]; [done|].
  cbn in Hentry. simplify_eq.
  split_and!; [done | apply strip_idemp | by apply upper_nonempty
              | apply upper_idemp].
Qed.

Lemma read_panel_entries_clean_witness :
  ("rs1" : string) ≠ "" ∧ Py.strip "rs1" = "rs1"
  ∧ ("A" : string) ≠ "" ∧ Py.upper "A" = "A".
Proof.
  apply (read_panel_entries_clean
           [["SNP"; "Allele"]; [" rs1 "; " a"]] [("rs1", "A")]);
    [vm_compute; reflexivity | apply list_elem_of_here].
Defined.



(** X29. The first occurrence wins, and order is kept: the panel read from
    a file is a prefix of the panel read from the same file with more rows
    at its end. *)
Theorem read_panel_prefix header_row rows more panel :
  read_panel (header_row :: rows ++ more) = Ok panel →
  ∃ panel1, read_panel (header_row :: rows) = Ok panel1
            ∧ panel1 `prefix_of` panel.
Proof.
  unfold read_panel.
  destruct (find_col _ ["SNP"; _; _]) as [s|]; [|done].
  destruct (find_col _ ["Allele"; _; _]) as [a|]; [|done].
  apply panel_rows_app.
Qed.

Lemma read_panel_prefix_witness :
  ∃ panel1, read_panel (["SNP"; "Allele"] :: [["rs1"; "a"]]) = Ok panel1
            ∧ panel1 `prefix_of` [("rs1", "A"); ("rs2", "C")].
Proof.
  apply (read_panel_prefix ["SNP"; "Allele"] [["rs1"; "a"]]
           [["rs1"; "g"]; ["rs2"; "c"]]).
  vm_compute; reflexivity.
Defined.

(** *** Both reads and the run *)



End panel.
